(** * Virtual Tattoo Studio

    A shallow embedding of the layer store, the direct-manipulation
    handlers of [TattooLayer], the properties panel, the drop handler and
    the export routine of [App.tsx], with the properties of the
    specification stated and settled against them.

    Numbers.  A JavaScript [number] is an IEEE double.  Layer geometry is
    modelled by the real numbers [R]: arithmetic is exact, rounding and
    signed zeros are left out.  The accumulators of the export routine
    start at [Infinity] and are modelled by [JS.number], the reals
    extended with the two infinities and NaN.

    Effects.  The React state of [App] ([layers], [selectedLayerId]) is
    threaded through a small state-and-log monad [Handler]; the log
    records what the user can observe ([alert], a download). *)

From Stdlib Require Import Reals Lra List String Bool NArith ZArith.
From Stdlib Require Import Decimal DecimalString.
From Stdlib Require Import DecimalN Ascii Permutation Lia.
Import ListNotations.

Open Scope R_scope.

(** ** JavaScript numbers and [Math] *)

Module JS.

(** [Math.max] and [Math.min] on finite numbers. *)
Definition Math_max (a b : R) : R := Rmax a b.
Definition Math_min (a b : R) : R := Rmin a b.

(** [Math.pow(b, 2)], the only exponent the source uses, and [Math.sqrt]. *)
Definition Math_pow (b : R) (e : nat) : R := b ^ e.
Definition Math_sqrt (r : R) : R := sqrt r.

(** [Math.atan2(y, x)]: the angle of the point [(x, y)], in (-PI, PI]. *)
Definition Math_atan2 (y x : R) : R :=
  if Rlt_dec 0 x then atan (y / x)
  else if Rlt_dec x 0 then
         if Rle_dec 0 y then atan (y / x) + PI else atan (y / x) - PI
  else if Rlt_dec 0 y then PI / 2
  else if Rlt_dec y 0 then - (PI / 2)
  else 0.

(** Truncation toward zero. *)
Definition trunc (r : R) : Z :=
  if Rle_dec 0 r then Int_part r else (- Int_part (- r))%Z.

(** The remainder operator [a % b]: the result takes the sign of the
    dividend [a]. *)
Definition rem (a b : R) : R := a - b * IZR (trunc (a / b)).

(** Extended numbers, for accumulators that start at [Infinity]. *)
Inductive number : Type :=
| Fin (r : R)
| Infinity
| NegInfinity
| NaN.

Definition min (a b : number) : number :=
  match a, b with
  | NaN, _ | _, NaN => NaN
  | NegInfinity, _ | _, NegInfinity => NegInfinity
  | Infinity, c | c, Infinity => c
  | Fin r, Fin s => Fin (Math_min r s)
  end.

Definition max (a b : number) : number :=
  match a, b with
  | NaN, _ | _, NaN => NaN
  | Infinity, _ | _, Infinity => Infinity
  | NegInfinity, c | c, NegInfinity => c
  | Fin r, Fin s => Fin (Math_max r s)
  end.

Definition sub (a b : number) : number :=
  match a, b with
  | NaN, _ | _, NaN => NaN
  | Infinity, Infinity | NegInfinity, NegInfinity => NaN
  | Infinity, _ | _, NegInfinity => Infinity
  | NegInfinity, _ | _, Infinity => NegInfinity
  | Fin r, Fin s => Fin (r - s)
  end.

Definition add (a b : number) : number :=
  match a, b with
  | NaN, _ | _, NaN => NaN
  | Infinity, NegInfinity | NegInfinity, Infinity => NaN
  | Infinity, _ | _, Infinity => Infinity
  | NegInfinity, _ | _, NegInfinity => NegInfinity
  | Fin r, Fin s => Fin (r + s)
  end.

End JS.

(** ** types.ts *)

Module Asset.
Record t : Type := mk { id : string; src : string }.
End Asset.

Module Layer.
Record t : Type := mk {
  id : string;
  assetId : string;
  src : string;
  originalSrc : string;
  x : R;
  y : R;
  width : R;
  height : R;
  scale : R;
  rotation : R;
  brightness : R;
  contrast : R;
  isFixed : bool
}.
End Layer.

(** [Partial<Layer>]: every key of [Layer] is optional; [None] is an
    absent key. *)
Module Partial.
Record t : Type := mk {
  id : option string;
  assetId : option string;
  src : option string;
  originalSrc : option string;
  x : option R;
  y : option R;
  width : option R;
  height : option R;
  scale : option R;
  rotation : option R;
  brightness : option R;
  contrast : option R;
  isFixed : option bool
}.

(** The object literal [{}]. *)
Definition empty : t :=
  mk None None None None None None None None None None None None None.
End Partial.

(** A key of the second object overrides the first one's. *)
Definition override {A : Type} (old : A) (new : option A) : A :=
  match new with
  | Some v => v
  | None => old
  end.

(** The object spread [{ ...l, ...updates }]. *)
Definition spread (l : Layer.t) (updates : Partial.t) : Layer.t :=
  {| Layer.id := override (Layer.id l) (Partial.id updates);
     Layer.assetId := override (Layer.assetId l) (Partial.assetId updates);
     Layer.src := override (Layer.src l) (Partial.src updates);
     Layer.originalSrc :=
       override (Layer.originalSrc l) (Partial.originalSrc updates);
     Layer.x := override (Layer.x l) (Partial.x updates);
     Layer.y := override (Layer.y l) (Partial.y updates);
     Layer.width := override (Layer.width l) (Partial.width updates);
     Layer.height := override (Layer.height l) (Partial.height updates);
     Layer.scale := override (Layer.scale l) (Partial.scale updates);
     Layer.rotation := override (Layer.rotation l) (Partial.rotation updates);
     Layer.brightness :=
       override (Layer.brightness l) (Partial.brightness updates);
     Layer.contrast := override (Layer.contrast l) (Partial.contrast updates);
     Layer.isFixed := override (Layer.isFixed l) (Partial.isFixed updates) |}.

(** ** DOM values the handlers read *)

Record MouseEvent : Type := { clientX : R; clientY : R }.

(** The part of [getBoundingClientRect()] the source reads. *)
Record DOMRect : Type := {
  rect_left : R;
  rect_top : R;
  rect_width : R;
  rect_height : R
}.

(** One [onload] callback of the export: the context calls between
    [ctx.save()] and [ctx.restore()]. *)
Record DrawCall : Type := {
  filter_brightness : R;
  filter_contrast : R;
  translate_x : JS.number;
  translate_y : JS.number;
  rotate_angle : R;
  image_src : string;
  image_dx : R;
  image_dy : R;
  image_dw : R;
  image_dh : R
}.

(** [canvas_width] and [canvas_height] are the numbers the source assigns
    to [canvas.width] and [canvas.height]; the attributes are of type
    [unsigned long], so the element keeps the whole part of them. *)
Record Canvas : Type := {
  canvas_width : JS.number;
  canvas_height : JS.number;
  canvas_calls : list DrawCall
}.

(** ** React state of [App] and what the user observes *)

Record AppState : Type := {
  layers : list Layer.t;
  selectedLayerId : option string
}.

Inductive Effect : Type :=
| Alert (message : string)
| Download (filename : string) (content : Canvas).

(** A handler reads and replaces the state and logs its effects. *)
Definition Handler (A : Type) : Type := AppState -> A * AppState * list Effect.

Definition ret {A : Type} (a : A) : Handler A := fun st => (a, st, []).

Definition bind {A B : Type} (m : Handler A) (k : A -> Handler B) : Handler B :=
  fun st =>
    match m st with
    | (a, st1, log1) =>
        match k a st1 with
        | (b, st2, log2) => (b, st2, log1 ++ log2)
        end
    end.

Declare Scope handler_scope.
Delimit Scope handler_scope with handler.
Notation "x <- m ;; k" := (bind m (fun x => k))
  (at level 61, m at next level, right associativity) : handler_scope.
Notation "m ;; k" := (bind m (fun _ => k))
  (at level 61, right associativity) : handler_scope.
Open Scope handler_scope.

(** The state after a handler ran, and its log. *)
Definition exec {A : Type} (m : Handler A) (st : AppState) : AppState :=
  snd (fst (m st)).
Definition effects {A : Type} (m : Handler A) (st : AppState) : list Effect :=
  snd (m st).
Definition result {A : Type} (m : Handler A) (st : AppState) : A :=
  fst (fst (m st)).

(** [setLayers(prev => f(prev))] and [setSelectedLayerId(v)]. *)
Definition setLayers (f : list Layer.t -> list Layer.t) : Handler unit :=
  fun st =>
    (tt, {| layers := f (layers st); selectedLayerId := selectedLayerId st |}, []).

Definition setSelectedLayerId (v : option string) : Handler unit :=
  fun st => (tt, {| layers := layers st; selectedLayerId := v |}, []).

(** The value of [layers] / [selectedLayerId] a callback closes over. *)
Definition readLayers : Handler (list Layer.t) :=
  fun st => (layers st, st, []).
Definition readSelectedLayerId : Handler (option string) :=
  fun st => (selectedLayerId st, st, []).

Definition alert (message : string) : Handler unit :=
  fun st => (tt, st, [Alert message]).

(** A click on a link whose [href] is [canvas.toDataURL('image/png')]. *)
Definition download (filename : string) (content : Canvas) : Handler unit :=
  fun st => (tt, st, [Download filename content]).

(** ** The layer store: [handleUpdateLayer], [handleDeleteLayer],
    [handleFixLayer] *)

Definition handleUpdateLayer (id : string) (updates : Partial.t) : Handler unit :=
  setLayers (map (fun l =>
    if String.eqb (Layer.id l) id then spread l updates else l)).

(** [selectedLayerId === id] *)
Definition selected_is (selected : option string) (id : string) : bool :=
  match selected with
  | Some s => String.eqb s id
  | None => false
  end.

Definition handleDeleteLayer (id : string) : Handler unit :=
  selected <- readSelectedLayerId ;;
  setLayers (filter (fun l => negb (String.eqb (Layer.id l) id))) ;;
  if selected_is selected id then setSelectedLayerId None else ret tt.

Definition fixUpdate : Partial.t :=
  Partial.mk None None None None None None None None None None None None
             (Some true).

Definition handleFixLayer (id : string) : Handler unit :=
  handleUpdateLayer id fixUpdate ;;
  setSelectedLayerId None.

(** ** [TattooLayer]: the interaction handlers *)

Module Interaction.
Inductive kind : Type := move | scale | rotate.

(** The contents of [interactionRef.current] when it is not [null]. *)
Record t : Type := mk {
  type : option kind;
  startX : R;
  startY : R;
  originalX : R;
  originalY : R;
  originalWidth : R;
  originalHeight : R;
  originalScale : R;
  originalRotation : R;
  centerX : R;
  centerY : R
}.
End Interaction.

(** The object literals the handlers pass to [onUpdate]. *)
Definition update_xy (x y : R) : Partial.t :=
  Partial.mk None None None None (Some x) (Some y) None None None None None
             None None.
Definition update_scale (v : R) : Partial.t :=
  Partial.mk None None None None None None None None (Some v) None None None
             None.
Definition update_rotation (v : R) : Partial.t :=
  Partial.mk None None None None None None None None None (Some v) None None
             None.
Definition update_brightness (v : R) : Partial.t :=
  Partial.mk None None None None None None None None None None (Some v) None
             None.
Definition update_contrast (v : R) : Partial.t :=
  Partial.mk None None None None None None None None None None None (Some v)
             None.

Section TattooLayer.

(** The props of the component. *)
Variable layer : Layer.t.
Variable onSelect : option string -> Handler unit.
Variable onUpdate : string -> Partial.t -> Handler unit.

(** [rect] and [canvasRect] are what [getBoundingClientRect()] returns
    for [layerRef] and [canvasRef]; the handler returns the new contents
    of [interactionRef.current]. *)
Definition handleMouseDown (rect canvasRect : DOMRect) (e : MouseEvent)
    (type : Interaction.kind) (interactionRef : option Interaction.t)
  : Handler (option Interaction.t) :=
  if Layer.isFixed layer then ret interactionRef
  else
    onSelect (Some (Layer.id layer)) ;;
    ret (Some {|
      Interaction.type := Some type;
      Interaction.startX := clientX e;
      Interaction.startY := clientY e;
      Interaction.originalX := Layer.x layer;
      Interaction.originalY := Layer.y layer;
      Interaction.originalWidth := rect_width rect / Layer.scale layer;
      Interaction.originalHeight := rect_height rect / Layer.scale layer;
      Interaction.originalScale := Layer.scale layer;
      Interaction.originalRotation := Layer.rotation layer;
      Interaction.centerX :=
        rect_left rect - rect_left canvasRect + rect_width rect / 2;
      Interaction.centerY :=
        rect_top rect - rect_top canvasRect + rect_height rect / 2 |}).

(** The scale and the rotation a pointer-move computes. *)
Definition scaleOnMove (i : Interaction.t) (e : MouseEvent) : R :=
  let dx := clientX e - Interaction.startX i in
  let dy := clientY e - Interaction.startY i in
  let scaleFactor :=
    JS.Math_sqrt (JS.Math_pow dx 2 + JS.Math_pow dy 2) / 100 in
  let newScale :=
    if Rgt_dec (clientX e) (Interaction.startX i)
    then Interaction.originalScale i + scaleFactor
    else Interaction.originalScale i - scaleFactor in
  JS.Math_max (1 / 10) newScale.

Definition angleOnMove (i : Interaction.t) (e : MouseEvent) : R :=
  JS.Math_atan2
    (clientY e - Interaction.startY i - Interaction.centerY i
     + Interaction.originalY i)
    (clientX e - Interaction.startX i - Interaction.centerX i
     + Interaction.originalX i)
  * (180 / PI).

Definition rotationOnMove (i : Interaction.t) (e : MouseEvent) : R :=
  JS.rem (Interaction.originalRotation i + angleOnMove i e) 360.

Definition handleMouseMove (e : MouseEvent)
    (interactionRef : option Interaction.t) : Handler unit :=
  match interactionRef with
  | None => ret tt
  | Some i =>
      let dx := clientX e - Interaction.startX i in
      let dy := clientY e - Interaction.startY i in
      match Interaction.type i with
      | Some Interaction.move =>
          onUpdate (Layer.id layer)
            (update_xy (Interaction.originalX i + dx)
                       (Interaction.originalY i + dy))
      | Some Interaction.scale =>
          onUpdate (Layer.id layer) (update_scale (scaleOnMove i e))
      | Some Interaction.rotate =>
          onUpdate (Layer.id layer) (update_rotation (rotationOnMove i e))
      | None => ret tt
      end
  end.

Definition handleMouseUp (e : MouseEvent)
    (interactionRef : option Interaction.t) : option Interaction.t :=
  None.

End TattooLayer.

(** ** [PropertiesPanel] *)

Inductive SliderProp : Type :=
| prop_scale | prop_rotation | prop_brightness | prop_contrast.

(** The computed-key literal [{ [prop]: value }] of [handleSliderChange]. *)
Definition slider_update (prop : SliderProp) (value : R) : Partial.t :=
  match prop with
  | prop_scale => update_scale value
  | prop_rotation => update_rotation value
  | prop_brightness => update_brightness value
  | prop_contrast => update_contrast value
  end.

(** What the user can do on the panel. *)
Inductive PanelAction : Type :=
| SliderChange (prop : SliderProp) (value : R)
| FixClick
| DeleteClick.

Section PropertiesPanel.

Variable selectedLayer : option Layer.t.
Variable onLayerUpdate : string -> Partial.t -> Handler unit.
Variable onLayerDelete : string -> Handler unit.
Variable onLayerFix : string -> Handler unit.

(** The panel renders its controls only for a selected layer that is not
    fixed; otherwise it renders the placeholder text, which has no
    control to act on. *)
Definition rendersControls : bool :=
  match selectedLayer with
  | None => false
  | Some l => negb (Layer.isFixed l)
  end.

Definition PropertiesPanel (a : PanelAction) : Handler unit :=
  match selectedLayer with
  | None => ret tt
  | Some l =>
      if Layer.isFixed l then ret tt
      else
        match a with
        | SliderChange prop value =>
            onLayerUpdate (Layer.id l) (slider_update prop value)
        | FixClick => onLayerFix (Layer.id l)
        | DeleteClick => onLayerDelete (Layer.id l)
        end
  end.

End PropertiesPanel.

(** [layers.find(l => l.id === selectedLayerId) || null] *)
Definition selectedLayerOf (st : AppState) : option Layer.t :=
  find (fun l => selected_is (selectedLayerId st) (Layer.id l)) (layers st).

(** ** [handleCanvasDrop] *)

(** [`layer-${Date.now()}`] *)
Definition layerId (now : N) : string :=
  "layer-" ++ NilEmpty.string_of_uint (N.to_uint now).

Definition initialWidth : R := 150.

(** [assetJSON] is the parsed drag payload ([None]: no payload);
    [canvasBounds] is [canvasRef.current?.getBoundingClientRect()];
    [getImageDimensions] gives the natural size of an image source
    ([None]: the image failed to load and the promise was rejected);
    [now] is [Date.now()]. *)
Definition handleCanvasDrop (e : MouseEvent) (assetJSON : option Asset.t)
    (canvasBounds : option DOMRect)
    (getImageDimensions : string -> option (R * R)) (now : N)
  : Handler unit :=
  match assetJSON with
  | None => ret tt
  | Some asset =>
      match canvasBounds with
      | None => ret tt
      | Some canvasBounds =>
          match getImageDimensions (Asset.src asset) with
          | None => ret tt
          | Some (width, height) =>
              let aspectRatio := width / height in
              let newLayer :=
                {| Layer.id := layerId now;
                   Layer.assetId := Asset.id asset;
                   Layer.src := Asset.src asset;
                   Layer.originalSrc := Asset.src asset;
                   Layer.x :=
                     clientX e - rect_left canvasBounds - initialWidth / 2;
                   Layer.y :=
                     clientY e - rect_top canvasBounds
                     - initialWidth / aspectRatio / 2;
                   Layer.width := initialWidth;
                   Layer.height := initialWidth / aspectRatio;
                   Layer.scale := 1;
                   Layer.rotation := 0;
                   Layer.brightness := 100;
                   Layer.contrast := 100;
                   Layer.isFixed := false |} in
              setLayers (fun prev => prev ++ [newLayer]) ;;
              setSelectedLayerId (Some (Layer.id newLayer))
          end
      end
  end.

(** ** [handleExport] *)

Record BoundingBox : Type := {
  minX : JS.number;
  minY : JS.number;
  maxX : JS.number;
  maxY : JS.number
}.

(** [let minX = Infinity, minY = Infinity, maxX = 0, maxY = 0] *)
Definition initialBox : BoundingBox :=
  {| minX := JS.Infinity; minY := JS.Infinity;
     maxX := JS.Fin 0; maxY := JS.Fin 0 |}.

(** The body of the [forEach] over the fixed layers. *)
Definition growBox (b : BoundingBox) (l : Layer.t) : BoundingBox :=
  let w := Layer.width l * Layer.scale l in
  let h := Layer.height l * Layer.scale l in
  {| minX := JS.min (minX b) (JS.Fin (Layer.x l));
     minY := JS.min (minY b) (JS.Fin (Layer.y l));
     maxX := JS.max (maxX b) (JS.Fin (Layer.x l + w));
     maxY := JS.max (maxY b) (JS.Fin (Layer.y l + h)) |}.

Definition boundingBox (fixedLayers : list Layer.t) : BoundingBox :=
  fold_left growBox fixedLayers initialBox.

(** The [onload] callback of one layer. *)
Definition drawLayer (b : BoundingBox) (layer : Layer.t) : DrawCall :=
  let w := Layer.width layer * Layer.scale layer in
  let h := Layer.height layer * Layer.scale layer in
  {| filter_brightness := Layer.brightness layer;
     filter_contrast := Layer.contrast layer;
     translate_x :=
       JS.add (JS.sub (JS.Fin (Layer.x layer)) (minX b)) (JS.Fin (w / 2));
     translate_y :=
       JS.add (JS.sub (JS.Fin (Layer.y layer)) (minY b)) (JS.Fin (h / 2));
     rotate_angle := Layer.rotation layer * PI / 180;
     image_src := Layer.src layer;
     image_dx := - w / 2;
     image_dy := - h / 2;
     image_dw := w;
     image_dh := h |}.

(** A promise of the export is built with [new Promise<void>((resolve) =>
    ...)]: it is resolved by [img.onload] and nothing ever rejects it, so
    it is either resolved or pending for ever. *)
Inductive Promise : Type := Resolved | Pending.

(** [decodes src] tells whether the browser fires [onload] for the image
    source [src]. *)
Definition imagePromise (decodes : string -> bool) (layer : Layer.t) : Promise :=
  if decodes (Layer.src layer) then Resolved else Pending.

Definition isResolved (p : Promise) : bool :=
  match p with
  | Resolved => true
  | Pending => false
  end.

(** [Promise.all] over promises that are never rejected. *)
Definition Promise_all (ps : list Promise) : Promise :=
  if forallb isResolved ps then Resolved else Pending.

(** Whether the [async] function ran to its end or is suspended at its
    [await] for ever. *)
Inductive ExportStatus : Type := Returned | Awaiting.

Definition noFixedMessage : string :=
  "No fixed tattoos to export. Please 'fix' a tattoo using the properties panel first.".

(** The draw calls are listed in the order of [fixedLayers]; the browser
    runs the [onload] callbacks in the order the images finish loading. *)
Definition handleExport (decodes : string -> bool) : Handler ExportStatus :=
  layers <- readLayers ;;
  let fixedLayers := filter Layer.isFixed layers in
  if Nat.eqb (List.length fixedLayers) 0 then
    alert noFixedMessage ;;
    ret Returned
  else
    let b := boundingBox fixedLayers in
    let canvas :=
      {| canvas_width := JS.sub (maxX b) (minX b);
         canvas_height := JS.sub (maxY b) (minY b);
         canvas_calls :=
           map (drawLayer b)
               (filter (fun layer => decodes (Layer.src layer)) fixedLayers) |} in
    let imagePromises := map (imagePromise decodes) fixedLayers in
    match Promise_all imagePromises with
    | Pending => ret Awaiting
    | Resolved =>
        download "tattoo-collage.png" canvas ;;
        ret Returned
    end.

(** The width and height the export assigns to its canvas, whatever
    happens to it afterwards. *)
Definition exportCanvasSize (ls : list Layer.t) : JS.number * JS.number :=
  let b := boundingBox (filter Layer.isFixed ls) in
  (JS.sub (maxX b) (minX b), JS.sub (maxY b) (minY b)).

(** Whether an effect is a downloaded file. *)
Definition isDownload (e : Effect) : bool :=
  match e with
  | Download _ _ => true
  | Alert _ => false
  end.

(** * Values and notions the properties are stated with *)

Open Scope string_scope.

(** ** Sample values *)

Definition sampleLayer (id : string) (x y : R) (isFixed : bool) : Layer.t :=
  {| Layer.id := id; Layer.assetId := "dragon-1";
     Layer.src := "https://i.imgur.com/vH1C2T6.png";
     Layer.originalSrc := "https://i.imgur.com/vH1C2T6.png";
     Layer.x := x; Layer.y := y; Layer.width := 150; Layer.height := 75;
     Layer.scale := 1; Layer.rotation := 0;
     Layer.brightness := 100; Layer.contrast := 100;
     Layer.isFixed := isFixed |}.

(** ** What the specification says a merge is *)

(** A field of the result is the provided value, or the old one when none
    is provided. *)
Definition agrees {A : Type} (old : A) (provided : option A) (new : A) : Prop :=
  match provided with
  | Some v => new = v
  | None => new = old
  end.

Definition mergedOnto (l : Layer.t) (u : Partial.t) (l' : Layer.t) : Prop :=
  agrees (Layer.id l) (Partial.id u) (Layer.id l')
  /\ agrees (Layer.assetId l) (Partial.assetId u) (Layer.assetId l')
  /\ agrees (Layer.src l) (Partial.src u) (Layer.src l')
  /\ agrees (Layer.originalSrc l) (Partial.originalSrc u) (Layer.originalSrc l')
  /\ agrees (Layer.x l) (Partial.x u) (Layer.x l')
  /\ agrees (Layer.y l) (Partial.y u) (Layer.y l')
  /\ agrees (Layer.width l) (Partial.width u) (Layer.width l')
  /\ agrees (Layer.height l) (Partial.height u) (Layer.height l')
  /\ agrees (Layer.scale l) (Partial.scale u) (Layer.scale l')
  /\ agrees (Layer.rotation l) (Partial.rotation u) (Layer.rotation l')
  /\ agrees (Layer.brightness l) (Partial.brightness u) (Layer.brightness l')
  /\ agrees (Layer.contrast l) (Partial.contrast u) (Layer.contrast l')
  /\ agrees (Layer.isFixed l) (Partial.isFixed u) (Layer.isFixed l').

(** The selection is [null] or names a layer of the store. *)
Definition selectionPresent (st : AppState) : Prop :=
  match selectedLayerId st with
  | None => True
  | Some s => In s (map Layer.id (layers st))
  end.

(** A copy of a layer with another image source. *)
Definition withSrc (src : string) (l : Layer.t) : Layer.t :=
  {| Layer.id := Layer.id l; Layer.assetId := Layer.assetId l;
     Layer.src := src; Layer.originalSrc := src;
     Layer.x := Layer.x l; Layer.y := Layer.y l;
     Layer.width := Layer.width l; Layer.height := Layer.height l;
     Layer.scale := Layer.scale l; Layer.rotation := Layer.rotation l;
     Layer.brightness := Layer.brightness l;
     Layer.contrast := Layer.contrast l;
     Layer.isFixed := Layer.isFixed l |}.

(** ** What the specification says the export canvas is *)

(** The smallest and the largest of the numbers [r :: rs]. *)
Fixpoint minimum (r : R) (rs : list R) : R :=
  match rs with
  | [] => r
  | s :: rs' => Rmin r (minimum s rs')
  end.

Fixpoint maximum (r : R) (rs : list R) : R :=
  match rs with
  | [] => r
  | s :: rs' => Rmax r (maximum s rs')
  end.

Definition rightEdge (l : Layer.t) : R := Layer.x l + Layer.width l * Layer.scale l.
Definition bottomEdge (l : Layer.t) : R := Layer.y l + Layer.height l * Layer.scale l.

(** For the fixed layers [l :: ls]: the largest right edge minus the
    smallest left edge, and the largest bottom edge minus the smallest top
    edge. *)
Definition tightSize (l : Layer.t) (ls : list Layer.t) : R * R :=
  (maximum (rightEdge l) (map rightEdge ls)
   - minimum (Layer.x l) (map Layer.x ls),
   maximum (bottomEdge l) (map bottomEdge ls)
   - minimum (Layer.y l) (map Layer.y ls)).

(** Settles a comparison of two concrete reals. *)
Ltac decide_reals :=
  repeat match goal with
         | |- context [Rlt_dec ?a ?b] => destruct (Rlt_dec a b); try lra
         | |- context [Rle_dec ?a ?b] => destruct (Rle_dec a b); try lra
         | |- context [Rgt_dec ?a ?b] => destruct (Rgt_dec a b); try lra
         end.

(** * The rest of [App.tsx] *)

(** ** The wiring of [App]: what each user event runs *)

(** The events are those of the JSX of [App]: a drop on the canvas, a click
    on the empty canvas, a click and a pointer-down on the [n]-th rendered
    layer, a pointer-move delivered to the window listener a [TattooLayer]
    registered (the listener keeps the [layer] and the [interactionRef] of
    the render that registered it), an action on the properties panel, and
    a click on the export button.  The export button is inside [main]:
    its click runs [handleExport] up to its first [await] and then bubbles
    to the [onClick] of [main], which clears the selection. *)
Inductive UIEvent : Type :=
| CanvasDrop (e : MouseEvent) (assetJSON : option Asset.t)
    (canvasBounds : option DOMRect)
    (getImageDimensions : string -> option (R * R)) (now : N)
| CanvasClick
| LayerClick (n : nat)
| LayerMouseDown (n : nat) (rect canvasRect : DOMRect) (e : MouseEvent)
    (type : Interaction.kind)
| WindowMouseMove (layer : Layer.t) (e : MouseEvent)
    (interactionRef : option Interaction.t)
| PanelClick (a : PanelAction)
| ExportClick (decodes : string -> bool).

Definition dispatch (ev : UIEvent) : Handler unit :=
  match ev with
  | CanvasDrop e assetJSON canvasBounds getImageDimensions now =>
      handleCanvasDrop e assetJSON canvasBounds getImageDimensions now
  | CanvasClick => setSelectedLayerId None
  | LayerClick n =>
      rendered <- readLayers ;;
      match nth_error rendered n with
      | Some layer => setSelectedLayerId (Some (Layer.id layer))
      | None => ret tt
      end
  | LayerMouseDown n rect canvasRect e type =>
      rendered <- readLayers ;;
      match nth_error rendered n with
      | Some layer =>
          handleMouseDown layer setSelectedLayerId rect canvasRect e type None ;;
          ret tt
      | None => ret tt
      end
  | WindowMouseMove layer e interactionRef =>
      handleMouseMove layer handleUpdateLayer e interactionRef
  | PanelClick a =>
      fun st =>
        PropertiesPanel (selectedLayerOf st) handleUpdateLayer
                        handleDeleteLayer handleFixLayer a st
  | ExportClick decodes =>
      handleExport decodes ;;
      setSelectedLayerId None
  end.

(** [useState<Layer[]>([])] and [useState<string | null>(null)] *)
Definition initialState : AppState :=
  {| layers := []; selectedLayerId := None |}.

Definition runEvents (evs : list UIEvent) (st : AppState) : AppState :=
  fold_left (fun s ev => exec (dispatch ev) s) evs st.

(** The [Date.now()] values of the drops among the events. *)
Fixpoint dropTimes (evs : list UIEvent) : list N :=
  match evs with
  | [] => []
  | CanvasDrop _ _ _ _ now :: evs' => now :: dropTimes evs'
  | _ :: evs' => dropTimes evs'
  end.

(** ** Assets: [handleFileUpload] and [AIGenerator] *)

Inductive TattooStyle : Type :=
| AmericanTraditional | Realism | Tribal | Watercolor | Japanese
| Geometric | Minimalist.

(** The [modelImage] and [assets] states of [App]. *)
Record Library : Type := {
  modelImage : option string;
  assets : list Asset.t
}.

(** [{ id: 'dragon-1', src: 'https://i.imgur.com/vH1C2T6.png' }] *)
Definition initialLibrary : Library :=
  {| modelImage := None;
     assets := [Asset.mk "dragon-1" "https://i.imgur.com/vH1C2T6.png"] |}.

Inductive UploadType : Type := upload_model | upload_asset.

(** [`upload-${Date.now()}`] and [`ai-${Date.now()}`] *)
Definition uploadId (now : N) : string :=
  "upload-" ++ NilEmpty.string_of_uint (N.to_uint now).
Definition aiId (now : N) : string :=
  "ai-" ++ NilEmpty.string_of_uint (N.to_uint now).

Definition uploadFailedMessage : string := "Could not load image file.".

(** [file] is [e.target.files?.[0]] ([None]: no file chosen);
    [fileToDataUrl] gives the data URL of a file ([None]: the reader
    failed and the promise was rejected).  The result is the new library
    and what the user is shown. *)
Definition handleFileUpload (file : option string)
    (fileToDataUrl : string -> option string) (type : UploadType) (now : N)
    (lib : Library) : Library * list Effect :=
  match file with
  | None => (lib, [])
  | Some file =>
      match fileToDataUrl file with
      | Some dataUrl =>
          match type with
          | upload_model =>
              ({| modelImage := Some dataUrl; assets := assets lib |}, [])
          | upload_asset =>
              let newAsset := Asset.mk (uploadId now) dataUrl in
              ({| modelImage := modelImage lib;
                  assets := newAsset :: assets lib |}, [])
          end
      | None => (lib, [Alert uploadFailedMessage])
      end
  end.

(** [String.prototype.trim] removes white space and line terminators from
    both ends.  A character of a [string] stands for a code unit below 256;
    the white space among those is TAB, LF, VT, FF, CR, SP and NBSP. *)
Definition isWhiteSpace (c : Ascii.ascii) : bool :=
  let n := Ascii.nat_of_ascii c in
  (n =? 9)%nat || (n =? 10)%nat || (n =? 11)%nat || (n =? 12)%nat
  || (n =? 13)%nat || (n =? 32)%nat || (n =? 160)%nat.

Fixpoint trimStart (cs : list Ascii.ascii) : list Ascii.ascii :=
  match cs with
  | [] => []
  | c :: cs' => if isWhiteSpace c then trimStart cs' else cs
  end.

Definition trimEnd (cs : list Ascii.ascii) : list Ascii.ascii :=
  List.rev (trimStart (List.rev cs)).

Definition trim (s : string) : string :=
  string_of_list_ascii (trimEnd (trimStart (list_ascii_of_string s))).

(** The four [useState] cells of [AIGenerator]. *)
Record GeneratorState : Type := {
  prompt : string;
  style : TattooStyle;
  isLoading : bool;
  error : option string
}.

(** What a rejected [generateTattooImage] throws: an [Error] with its
    message, or something else. *)
Inductive Thrown : Type :=
| ThrownError (message : string)
| ThrownOther.

Definition emptyPromptMessage : string :=
  "Please enter a description for your tattoo.".
Definition unknownErrorMessage : string := "An unknown error occurred.".

(** [onImageGenerated], as [App] passes it:
    [(asset) => setAssets(prev => [asset, ...prev])]. *)
Definition onImageGenerated (asset : Asset.t) (prev : list Asset.t)
  : list Asset.t :=
  asset :: prev.

(** [generateTattooImage prompt style] is the outcome of the service call:
    the image source, or what it throws.  The result is the state of the
    component and the assets once the handler has finished. *)
Definition handleGenerate
    (generateTattooImage : string -> TattooStyle -> string + Thrown)
    (now : N) (g : GeneratorState) (prev : list Asset.t)
  : GeneratorState * list Asset.t :=
  match trim (prompt g) with
  | EmptyString =>
      ({| prompt := prompt g; style := style g; isLoading := isLoading g;
          error := Some emptyPromptMessage |}, prev)
  | String _ _ =>
      match generateTattooImage (prompt g) (style g) with
      | inl generatedSrc =>
          let newAsset := Asset.mk (aiId now) generatedSrc in
          ({| prompt := ""; style := style g; isLoading := false;
              error := None |},
           onImageGenerated newAsset prev)
      | inr (ThrownError message) =>
          ({| prompt := prompt g; style := style g; isLoading := false;
              error := Some message |}, prev)
      | inr ThrownOther =>
          ({| prompt := prompt g; style := style g; isLoading := false;
              error := Some unknownErrorMessage |}, prev)
      end
  end.

(** ** Notions the further properties are stated with *)

(** [{ ...u1, ...u2 }] on partial layers: a key of [u2] wins. *)
Definition later {A : Type} (first second : option A) : option A :=
  match second with
  | Some v => Some v
  | None => first
  end.

Definition overlay (u1 u2 : Partial.t) : Partial.t :=
  Partial.mk
    (later (Partial.id u1) (Partial.id u2))
    (later (Partial.assetId u1) (Partial.assetId u2))
    (later (Partial.src u1) (Partial.src u2))
    (later (Partial.originalSrc u1) (Partial.originalSrc u2))
    (later (Partial.x u1) (Partial.x u2))
    (later (Partial.y u1) (Partial.y u2))
    (later (Partial.width u1) (Partial.width u2))
    (later (Partial.height u1) (Partial.height u2))
    (later (Partial.scale u1) (Partial.scale u2))
    (later (Partial.rotation u1) (Partial.rotation u2))
    (later (Partial.brightness u1) (Partial.brightness u2))
    (later (Partial.contrast u1) (Partial.contrast u2))
    (later (Partial.isFixed u1) (Partial.isFixed u2)).

(** Two layers that differ at most in position, scale and rotation. *)
Definition sameButGeometry (l l' : Layer.t) : Prop :=
  Layer.id l' = Layer.id l
  /\ Layer.assetId l' = Layer.assetId l
  /\ Layer.src l' = Layer.src l
  /\ Layer.originalSrc l' = Layer.originalSrc l
  /\ Layer.width l' = Layer.width l
  /\ Layer.height l' = Layer.height l
  /\ Layer.brightness l' = Layer.brightness l
  /\ Layer.contrast l' = Layer.contrast l
  /\ Layer.isFixed l' = Layer.isFixed l.

(** Two layers that differ at most in [isFixed]. *)
Definition sameButLock (l l' : Layer.t) : Prop :=
  Layer.id l' = Layer.id l
  /\ Layer.assetId l' = Layer.assetId l
  /\ Layer.src l' = Layer.src l
  /\ Layer.originalSrc l' = Layer.originalSrc l
  /\ Layer.x l' = Layer.x l
  /\ Layer.y l' = Layer.y l
  /\ Layer.width l' = Layer.width l
  /\ Layer.height l' = Layer.height l
  /\ Layer.scale l' = Layer.scale l
  /\ Layer.rotation l' = Layer.rotation l
  /\ Layer.brightness l' = Layer.brightness l
  /\ Layer.contrast l' = Layer.contrast l.

(** * Properties *)

(** ** The layer store *)

Lemma agrees_override {A : Type} (old : A) (provided : option A) :
  agrees old provided (override old provided).
Proof. destruct provided; reflexivity. Qed.

Lemma spread_mergedOnto (l : Layer.t) (u : Partial.t) :
  mergedOnto l u (spread l u).
Proof. unfold mergedOnto, spread; simpl. repeat split; apply agrees_override. Qed.

Lemma spread_empty (l : Layer.t) : spread l Partial.empty = l.
Proof. destruct l; reflexivity. Qed.

Lemma handleUpdateLayer_run (id : string) (u : Partial.t) (st : AppState) :
  handleUpdateLayer id u st =
  (tt,
   {| layers :=
        map (fun l => if String.eqb (Layer.id l) id then spread l u else l)
            (layers st);
      selectedLayerId := selectedLayerId st |},
   []).
Proof. reflexivity. Qed.

Lemma handleFixLayer_run (id : string) (st : AppState) :
  handleFixLayer id st =
  (tt,
   {| layers :=
        map (fun l =>
               if String.eqb (Layer.id l) id then spread l fixUpdate else l)
            (layers st);
      selectedLayerId := None |},
   []).
Proof. reflexivity. Qed.

Lemma handleDeleteLayer_run (id : string) (st : AppState) :
  handleDeleteLayer id st =
  (tt,
   {| layers := filter (fun l => negb (String.eqb (Layer.id l) id)) (layers st);
      selectedLayerId :=
        if selected_is (selectedLayerId st) id then None
        else selectedLayerId st |},
   []).
Proof.
  unfold handleDeleteLayer, bind, readSelectedLayerId, setLayers; simpl.
  destruct (selected_is (selectedLayerId st) id); reflexivity.
Qed.

(** Mapping over a store that does not hold [id] changes nothing. *)
Lemma map_unknown_id (id : string) (f : Layer.t -> Layer.t) (ls : list Layer.t) :
  ~ In id (map Layer.id ls) ->
  map (fun l => if String.eqb (Layer.id l) id then f l else l) ls = ls.
Proof.
  induction ls as [|l ls IH]; intros Hid; simpl in *.
  - reflexivity.
  - destruct (String.eqb_spec (Layer.id l) id) as [Heq|Hne].
    + exfalso. apply Hid. now left.
    + f_equal. apply IH. intros Hin. apply Hid. now right.
Qed.

Lemma filter_unknown_id (id : string) (ls : list Layer.t) :
  ~ In id (map Layer.id ls) ->
  filter (fun l => negb (String.eqb (Layer.id l) id)) ls = ls.
Proof.
  induction ls as [|l ls IH]; intros Hid; simpl in *.
  - reflexivity.
  - destruct (String.eqb_spec (Layer.id l) id) as [Heq|Hne]; simpl.
    + exfalso. apply Hid. now left.
    + f_equal. apply IH. intros Hin. apply Hid. now right.
Qed.

Lemma selected_is_true (selected : option string) (id : string) :
  selected_is selected id = true <-> selected = Some id.
Proof.
  destruct selected as [s|]; simpl.
  - rewrite String.eqb_eq. split; congruence.
  - split; discriminate.
Qed.

Lemma update_nth (id : string) (u : Partial.t) (st : AppState) (i : nat)
    (l : Layer.t) :
  nth_error (layers st) i = Some l ->
  nth_error (layers (exec (handleUpdateLayer id u) st)) i =
  Some (if String.eqb (Layer.id l) id then spread l u else l).
Proof.
  intros Hi. unfold exec. rewrite handleUpdateLayer_run. simpl.
  rewrite nth_error_map, Hi. reflexivity.
Qed.

(** C7. [updateLayer(id, partial)] keeps the length and the order of the
    layer list and the selection; the layer at each position is left as it
    is when its id differs from [id], and otherwise becomes the merge of the
    partial onto it: each field is the provided value, or the old value when
    the partial does not provide it.  With the empty partial the whole
    state, the targeted layer included, is unchanged; nothing is shown to
    the user. *)
Theorem updateLayer_merges_provided_fields :
  forall (st : AppState) (id : string) (updates : Partial.t),
    let st' := exec (handleUpdateLayer id updates) st in
    List.length (layers st') = List.length (layers st)
    /\ selectedLayerId st' = selectedLayerId st
    /\ effects (handleUpdateLayer id updates) st = []
    /\ (forall i l, nth_error (layers st) i = Some l ->
          exists l', nth_error (layers st') i = Some l'
            /\ (Layer.id l <> id -> l' = l)
            /\ (Layer.id l = id -> mergedOnto l updates l'))
    /\ exec (handleUpdateLayer id Partial.empty) st = st.
Proof.
  intros st id updates st'. subst st'.
  repeat split.
  - unfold exec. rewrite handleUpdateLayer_run. simpl. apply length_map.
  - intros i l Hi. eexists. split; [apply update_nth; exact Hi|].
    destruct (String.eqb_spec (Layer.id l) id) as [Heq|Hne]; split; intros H;
      try congruence; try reflexivity.
    apply spread_mergedOnto.
  - unfold exec. rewrite handleUpdateLayer_run. simpl.
    destruct st as [ls sel]; simpl. f_equal.
    rewrite <- (map_id ls) at 2. apply map_ext. intros l.
    rewrite spread_empty. now destruct (String.eqb (Layer.id l) id).
Qed.

(** A store of two layers, the second one selected; an update of the first
    one's position moves it and leaves the second where the theorem says. *)
Lemma updateLayer_merges_provided_fields_witness :
  let st := {| layers := [sampleLayer "layer-1" 10 10 false;
                          sampleLayer "layer-2" 30 40 false];
               selectedLayerId := Some "layer-2" |} in
  let st' := exec (handleUpdateLayer "layer-1" (update_xy 40 25)) st in
  nth_error (layers st) 1 = Some (sampleLayer "layer-2" 30 40 false)
  /\ "layer-2" <> "layer-1"
  /\ nth_error (layers st') 1 = Some (sampleLayer "layer-2" 30 40 false).
Proof.
  intros st st'.
  split; [reflexivity|]. split; [discriminate|].
  destruct (updateLayer_merges_provided_fields st "layer-1" (update_xy 40 25))
    as (_ & _ & _ & Hnth & _).
  destruct (Hnth 1%nat (sampleLayer "layer-2" 30 40 false) eq_refl)
    as (l' & Hl' & Hother & _).
  fold st' in Hl'. rewrite Hl'. f_equal. apply Hother. discriminate.
Defined.

(** C10. The fix action leaves the selection [null], whatever the state
    and the id: also when another layer was selected, and when no layer has
    the id. *)
Theorem fixLayer_always_clears_selection :
  forall (st : AppState) (id : string),
    selectedLayerId (exec (handleFixLayer id) st) = None.
Proof. intros st id. unfold exec. rewrite handleFixLayer_run. reflexivity. Qed.

(** Fixing the first layer while the second one is selected loses that
    selection. *)
Example fixLayer_loses_other_selection :
  let st := {| layers := [sampleLayer "layer-1" 10 10 false;
                          sampleLayer "layer-2" 30 40 false];
               selectedLayerId := Some "layer-2" |} in
  selectedLayerId (exec (handleFixLayer "layer-1") st) = None
  /\ selectedLayerId st = Some "layer-2".
Proof. split; reflexivity. Qed.

(** ** Ids the store does not hold *)

(** C8, as stated, fails for the fix action: with a layer selected, fixing
    an id the store does not hold clears the selection. *)
Lemma unknown_id_fix_changes_selection :
  let st := {| layers := [sampleLayer "layer-1" 10 10 false];
               selectedLayerId := Some "layer-1" |} in
  ~ In "layer-9" (map Layer.id (layers st))
  /\ selectedLayerId (exec (handleFixLayer "layer-9") st)
     <> selectedLayerId st.
Proof.
  intros st. split.
  - simpl. intros [H|[]]. discriminate H.
  - simpl. discriminate.
Qed.

(** C8, amended.  For an id the store does not hold: [updateLayer] leaves
    the whole state unchanged; [deleteLayer] leaves the layer list
    unchanged, and the selection too unless the selection is that very id
    (which it is not when the selection is [null] or names a layer of the
    store); the fix action leaves the layer list unchanged and sets the
    selection to [null].  None of the three shows anything to the user. *)
Theorem unknown_id_leaves_layers :
  forall (st : AppState) (id : string),
    ~ In id (map Layer.id (layers st)) ->
    (forall updates,
        exec (handleUpdateLayer id updates) st = st
        /\ effects (handleUpdateLayer id updates) st = [])
    /\ (layers (exec (handleDeleteLayer id) st) = layers st
        /\ (selectedLayerId st <> Some id ->
            exec (handleDeleteLayer id) st = st)
        /\ (selectionPresent st -> exec (handleDeleteLayer id) st = st)
        /\ effects (handleDeleteLayer id) st = [])
    /\ (layers (exec (handleFixLayer id) st) = layers st
        /\ selectedLayerId (exec (handleFixLayer id) st) = None
        /\ effects (handleFixLayer id) st = []).
Proof.
  intros st id Hid.
  assert (Hdel : selectedLayerId st <> Some id ->
                 exec (handleDeleteLayer id) st = st).
  { intros Hsel. unfold exec. rewrite handleDeleteLayer_run. simpl.
    rewrite (filter_unknown_id _ _ Hid).
    destruct (selected_is (selectedLayerId st) id) eqn:E.
    - apply selected_is_true in E. contradiction.
    - now destruct st. }
  split; [|split].
  - intros updates. split; [|reflexivity].
    unfold exec. rewrite handleUpdateLayer_run. simpl.
    rewrite (map_unknown_id _ _ _ Hid). now destruct st.
  - split; [|split; [|split]].
    + unfold exec. rewrite handleDeleteLayer_run. simpl.
      apply filter_unknown_id, Hid.
    + exact Hdel.
    + intros Hpresent. apply Hdel. intros Hsel.
      unfold selectionPresent in Hpresent. rewrite Hsel in Hpresent.
      contradiction.
    + unfold effects. rewrite handleDeleteLayer_run. reflexivity.
  - split; [|split].
    + unfold exec. rewrite handleFixLayer_run. simpl.
      apply map_unknown_id, Hid.
    + unfold exec. rewrite handleFixLayer_run. reflexivity.
    + reflexivity.
Qed.

Lemma unknown_id_leaves_layers_witness :
  let st := {| layers := [sampleLayer "layer-1" 10 10 false];
               selectedLayerId := Some "layer-1" |} in
  ~ In "layer-9" (map Layer.id (layers st))
  /\ exec (handleUpdateLayer "layer-9" (update_xy 40 25)) st = st
  /\ exec (handleDeleteLayer "layer-9") st = st
  /\ layers (exec (handleFixLayer "layer-9") st) = layers st
  /\ selectedLayerId (exec (handleFixLayer "layer-9") st) = None.
Proof.
  intros st.
  assert (Hid : ~ In "layer-9" (map Layer.id (layers st))).
  { simpl. intros [H|[]]. discriminate H. }
  split; [exact Hid|].
  destruct (unknown_id_leaves_layers st "layer-9" Hid)
    as (Hupd & (_ & Hdel & _ & _) & (Hfix & Hsel & _)).
  split; [apply Hupd|]. split; [apply Hdel; discriminate|].
  split; [exact Hfix | exact Hsel].
Defined.

(** ** Fixed layers *)

(** [updateLayer] itself does not look at [isFixed]: after the fix action
    on a layer, a direct update of that layer's position is applied. *)
Lemma updateLayer_mutates_fixed_layer :
  let st := {| layers := [sampleLayer "layer-1" 10 10 false];
               selectedLayerId := Some "layer-1" |} in
  let fixed := exec (handleFixLayer "layer-1") st in
  let after := exec (handleUpdateLayer "layer-1" (update_xy 40 25)) fixed in
  layers fixed = [sampleLayer "layer-1" 10 10 true]
  /\ layers after = [sampleLayer "layer-1" 40 25 true]
  /\ layers after <> layers fixed.
Proof.
  intros st fixed after.
  split; [reflexivity|]. split; [reflexivity|].
  simpl. intros H. injection H as Hx Hy. lra.
Qed.

(** The guards the code has for a fixed layer, at two of the three callers
    of [updateLayer]: a pointer-down on the layer changes neither the
    interaction session nor the state, and the properties panel renders no
    control and passes nothing on.  The third caller, the pointer-move of
    a session, has none. *)
Lemma fixed_layer_guarded_by_callers :
  forall (l : Layer.t),
    Layer.isFixed l = true ->
    (forall onSelect rect canvasRect e type interactionRef st,
        handleMouseDown l onSelect rect canvasRect e type interactionRef st
        = (interactionRef, st, []))
    /\ (forall onLayerUpdate onLayerDelete onLayerFix,
          rendersControls (Some l) = false
          /\ forall a st,
              PropertiesPanel (Some l) onLayerUpdate onLayerDelete onLayerFix
                              a st
              = (tt, st, [])).
Proof.
  intros l Hfixed. split.
  - intros. unfold handleMouseDown. rewrite Hfixed. reflexivity.
  - intros. split.
    + unfold rendersControls. now rewrite Hfixed.
    + intros. unfold PropertiesPanel. rewrite Hfixed. reflexivity.
Qed.

(** C1 fails on the code.  A layer at (10, 10) that is not fixed, on a
    canvas whose top-left corner is at (352, 64) in the viewport: a
    pointer-down on the layer at (400, 100) starts a Move session; the fix
    action then fixes the layer, at (10, 10); a pointer-move to
    (430, 115), delivered to the listener the session registered, calls
    [updateLayer] with the layer's id.  Neither the listener nor
    [updateLayer] looks at [isFixed], so the call is no no-op: the fixed
    layer is moved to (40, 25). *)
Theorem fixed_layer_moved_by_session_in_flight :
  let layer := sampleLayer "layer-1" 10 10 false in
  let st := {| layers := [layer]; selectedLayerId := None |} in
  let rect := {| rect_left := 362; rect_top := 74;
                 rect_width := 150; rect_height := 75 |} in
  let canvasRect := {| rect_left := 352; rect_top := 64;
                       rect_width := 800; rect_height := 600 |} in
  let down := handleMouseDown layer setSelectedLayerId rect canvasRect
                {| clientX := 400; clientY := 100 |} Interaction.move None in
  let fixed := exec (handleFixLayer "layer-1") (exec down st) in
  let move := handleMouseMove layer handleUpdateLayer
                {| clientX := 430; clientY := 115 |} (result down st) in
  layers fixed = [sampleLayer "layer-1" 10 10 true]
  /\ exists after,
      layers (exec move fixed) = [after]
      /\ Layer.isFixed after = true
      /\ Layer.x after = 40 /\ Layer.y after = 25
      /\ layers (exec move fixed) <> layers fixed.
Proof.
  intros layer st rect canvasRect down fixed move.
  split; [reflexivity|].
  eexists. split; [reflexivity|]. simpl.
  split; [reflexivity|]. split; [lra|]. split; [lra|].
  intros H. injection H as Hx Hy. lra.
Qed.

(** ** Arithmetic of [%] and [Math.atan2] *)

Lemma Int_part_unit (r : R) : 0 <= r < 1 -> Int_part r = 0%Z.
Proof. intros H. symmetry. apply Int_part_spec. simpl. lra. Qed.

Lemma trunc_small (r : R) : -1 < r < 1 -> JS.trunc r = 0%Z.
Proof.
  intros H. unfold JS.trunc. destruct (Rle_dec 0 r).
  - apply Int_part_unit. lra.
  - rewrite Int_part_unit; [reflexivity | lra].
Qed.

Lemma trunc_one (r : R) : 1 <= r < 2 -> JS.trunc r = 1%Z.
Proof.
  intros H. unfold JS.trunc. destruct (Rle_dec 0 r); [|lra].
  symmetry. apply Int_part_spec. simpl. lra.
Qed.

(** A dividend smaller than the divisor in absolute value is its own
    remainder, sign included. *)
Lemma rem_small (a b : R) : 0 < b -> - b < a < b -> JS.rem a b = a.
Proof.
  intros Hb Ha. unfold JS.rem. rewrite trunc_small; [simpl; ring|].
  split.
  - apply Rmult_lt_reg_r with b; [exact Hb|].
    unfold Rdiv. rewrite Rmult_assoc, Rinv_l; lra.
  - apply Rmult_lt_reg_r with b; [exact Hb|].
    unfold Rdiv. rewrite Rmult_assoc, Rinv_l; lra.
Qed.

Lemma rem_once (a b : R) : 0 < b -> b <= a < 2 * b -> JS.rem a b = a - b.
Proof.
  intros Hb Ha. unfold JS.rem. rewrite trunc_one; [simpl; ring|].
  split.
  - apply Rmult_le_reg_r with b; [exact Hb|].
    unfold Rdiv. rewrite Rmult_assoc, Rinv_l; lra.
  - apply Rmult_lt_reg_r with b; [exact Hb|].
    unfold Rdiv. rewrite Rmult_assoc, Rinv_l; lra.
Qed.

Lemma atan_nonpos (r : R) : r <= 0 -> atan r <= 0.
Proof.
  intros [Hlt|Heq].
  - left. rewrite <- atan_0. now apply atan_increasing.
  - subst r. rewrite atan_0. lra.
Qed.

Lemma atan_pos (r : R) : 0 < r -> 0 < atan r.
Proof. intros H. rewrite <- atan_0. now apply atan_increasing. Qed.

Lemma Math_atan2_range (y x : R) : - PI < JS.Math_atan2 y x <= PI.
Proof.
  pose proof PI_RGT_0 as Hpi.
  pose proof (atan_bound (y / x)) as Hb.
  unfold JS.Math_atan2.
  destruct (Rlt_dec 0 x) as [Hx|Hx]; [lra|].
  destruct (Rlt_dec x 0) as [Hx'|Hx'].
  - assert (Hinv : / x < 0) by now apply Rinv_lt_0_compat.
    destruct (Rle_dec 0 y) as [Hy|Hy].
    + assert (atan (y / x) <= 0).
      { apply atan_nonpos. unfold Rdiv. nra. }
      lra.
    + assert (0 < atan (y / x)).
      { apply atan_pos. unfold Rdiv. nra. }
      lra.
  - destruct (Rlt_dec 0 y); [lra|]. destruct (Rlt_dec y 0); lra.
Qed.

(** The angle of a pointer-move, in degrees, lies in (-180, 180]. *)
Lemma angleOnMove_range (i : Interaction.t) (e : MouseEvent) :
  -180 < angleOnMove i e <= 180.
Proof.
  unfold angleOnMove.
  match goal with |- context [JS.Math_atan2 ?y ?x] =>
    pose proof (Math_atan2_range y x) as Ha;
    set (a := JS.Math_atan2 y x) in *
  end.
  pose proof PI_RGT_0 as Hpi.
  assert (Hk : 0 < 180 / PI).
  { apply Rdiv_lt_0_compat; lra. }
  assert (Hpk : PI * (180 / PI) = 180).
  { field. lra. }
  set (k := 180 / PI) in *. nra.
Qed.

(** What the rotate branch stores: the sum of the anchor rotation and the
    angle, brought below 360 from above but left as it is when negative. *)
Lemma rotationOnMove_cases (i : Interaction.t) (e : MouseEvent) :
  0 <= Interaction.originalRotation i < 360 ->
  let s := Interaction.originalRotation i + angleOnMove i e in
  (s < 360 -> rotationOnMove i e = s)
  /\ (360 <= s -> rotationOnMove i e = s - 360)
  /\ -180 < rotationOnMove i e < 360.
Proof.
  intros Hr s. pose proof (angleOnMove_range i e) as Ha.
  unfold rotationOnMove. fold s.
  assert (Hs : -180 < s <= 540) by (unfold s; lra).
  assert (Hlow : s < 360 -> JS.rem s 360 = s).
  { intros H. apply rem_small; lra. }
  assert (Hhigh : 360 <= s -> JS.rem s 360 = s - 360).
  { intros H. apply rem_once; lra. }
  split; [exact Hlow|]. split; [exact Hhigh|].
  destruct (Rlt_dec s 360) as [H|H].
  - rewrite Hlow; lra.
  - rewrite Hhigh; lra.
Qed.

(** ** Scale and rotate interactions *)

Lemma scaleOnMove_eq (i : Interaction.t) (e : MouseEvent) :
  let dx := clientX e - Interaction.startX i in
  let dy := clientY e - Interaction.startY i in
  let sign := if Rgt_dec (clientX e) (Interaction.startX i) then 1 else -1 in
  scaleOnMove i e =
  Rmax (1 / 10)
       (Interaction.originalScale i + sign * (sqrt (dx ^ 2 + dy ^ 2) / 100)).
Proof.
  intros dx dy sign. unfold scaleOnMove, JS.Math_max, JS.Math_sqrt, JS.Math_pow.
  fold dx dy. subst sign.
  destruct (Rgt_dec (clientX e) (Interaction.startX i)); f_equal; ring.
Qed.

(** C5. A pointer-move of a Scale interaction stores, in every layer of the
    store that has the id of the dragged layer, the scale
    [max(0.1, anchor scale + sign * (sqrt(dx^2 + dy^2) / 100))], where
    [sign] is 1 when the pointer's x exceeds the anchor's and -1 otherwise;
    the stored scale is at least 0.1, for any anchor scale and any
    displacement. *)
Theorem scale_interaction_stores_clamped_scale :
  forall (layer : Layer.t) (i : Interaction.t) (e : MouseEvent)
         (st : AppState),
    Interaction.type i = Some Interaction.scale ->
    let dx := clientX e - Interaction.startX i in
    let dy := clientY e - Interaction.startY i in
    let sign := if Rgt_dec (clientX e) (Interaction.startX i) then 1 else -1 in
    let stored :=
      Rmax (1 / 10)
           (Interaction.originalScale i
            + sign * (sqrt (dx ^ 2 + dy ^ 2) / 100)) in
    let st' := exec (handleMouseMove layer handleUpdateLayer e (Some i)) st in
    1 / 10 <= stored
    /\ forall n l,
        nth_error (layers st) n = Some l ->
        Layer.id l = Layer.id layer ->
        exists l', nth_error (layers st') n = Some l'
                   /\ Layer.scale l' = stored.
Proof.
  intros layer i e st Htype dx dy sign stored st'.
  split; [apply Rmax_l|].
  intros n l Hn Hid. subst st'. unfold handleMouseMove. rewrite Htype.
  rewrite (update_nth _ _ _ _ _ Hn).
  apply String.eqb_eq in Hid. rewrite Hid.
  eexists. split; [reflexivity|]. simpl. apply scaleOnMove_eq.
Qed.

(** A scale drag of 30 px to the left and 40 px down from an anchor scale
    of 0.3: sqrt(900 + 1600) / 100 = 0.5 is subtracted and the result is
    clamped to 0.1. *)
Lemma scale_interaction_stores_clamped_scale_witness :
  let l := sampleLayer "layer-1" 10 10 false in
  let i := Interaction.mk (Some Interaction.scale) 160 85 10 10 150 75
                          (3 / 10) 0 85 (95 / 2) in
  let e := {| clientX := 130; clientY := 125 |} in
  let st := {| layers := [l]; selectedLayerId := Some "layer-1" |} in
  Interaction.type i = Some Interaction.scale
  /\ exists l',
      layers (exec (handleMouseMove l handleUpdateLayer e (Some i)) st) = [l']
      /\ Layer.scale l' = 1 / 10.
Proof.
  intros l i e st. split; [reflexivity|].
  destruct (scale_interaction_stores_clamped_scale l i e st eq_refl)
    as (_ & Hstored).
  destruct (Hstored 0%nat l eq_refl eq_refl) as (l' & Hl' & Hscale).
  exists l'. split.
  - simpl in Hl'. injection Hl' as <-. reflexivity.
  - rewrite Hscale. simpl.
    replace ((130 - 160) * ((130 - 160) * 1) + (125 - 85) * ((125 - 85) * 1))
      with (50 * 50) by ring.
    rewrite sqrt_square by lra.
    destruct (Rgt_dec 130 160) as [H|H]; [lra|].
    apply Rmax_left. lra.
Defined.

(** C2 fails on the code.  A layer at (100, 100) of size 150 x 75 with
    rotation 0, on a canvas whose top-left corner is at (352, 64) in the
    viewport: a pointer-down on the rotate handle at (527, 149) followed by
    a pointer-move to (602, 149) gives [atan2(-37.5, 0)] = -90 degrees, and
    [(0 + -90) % 360] = -90 is stored: the remainder keeps the sign of the
    dividend. *)
Theorem rotate_interaction_stores_negative_rotation :
  let l := sampleLayer "layer-1" 100 100 false in
  let st := {| layers := [l]; selectedLayerId := None |} in
  let rect := {| rect_left := 452; rect_top := 164;
                 rect_width := 150; rect_height := 75 |} in
  let canvasRect := {| rect_left := 352; rect_top := 64;
                       rect_width := 800; rect_height := 600 |} in
  let down := handleMouseDown l setSelectedLayerId rect canvasRect
                {| clientX := 527; clientY := 149 |} Interaction.rotate None in
  let move := handleMouseMove l handleUpdateLayer
                {| clientX := 602; clientY := 149 |} (result down st) in
  0 <= Layer.rotation l < 360
  /\ map Layer.rotation (layers (exec move (exec down st))) = [-90]
  /\ -90 < 0.
Proof.
  intros l st rect canvasRect down move.
  split; [simpl; lra|]. split; [|lra].
  subst move down. unfold exec, result. simpl. f_equal.
  unfold rotationOnMove, angleOnMove. simpl.
  assert (Hangle :
    JS.Math_atan2 (149 - 149 - (164 - 64 + 75 / 2) + 100)
                  (602 - 527 - (452 - 352 + 150 / 2) + 100) * (180 / PI)
    = -90).
  { unfold JS.Math_atan2. pose proof PI_RGT_0.
    decide_reals. field. lra. }
  rewrite Hangle. rewrite rem_small by lra. ring.
Qed.

(** ** Drop-to-place *)

(** C9. Dropping an asset whose image has natural size
    [naturalW] x [naturalH] (both positive) at the canvas-relative point
    [(px, py)] appends one layer and selects it; the layer has base size
    [(150, 150 * naturalH / naturalW)], position
    [(px - 150/2, py - (150 * naturalH / naturalW)/2)], scale 1,
    rotation 0, brightness 100, contrast 100, and is not fixed. *)
Theorem drop_creates_centered_layer :
  forall (e : MouseEvent) (asset : Asset.t) (canvasBounds : DOMRect)
         (getImageDimensions : string -> option (R * R)) (now : N)
         (st : AppState) (naturalW naturalH : R),
    getImageDimensions (Asset.src asset) = Some (naturalW, naturalH) ->
    0 < naturalW ->
    0 < naturalH ->
    let px := clientX e - rect_left canvasBounds in
    let py := clientY e - rect_top canvasBounds in
    exists newLayer,
      exec (handleCanvasDrop e (Some asset) (Some canvasBounds)
                             getImageDimensions now) st
      = {| layers := (layers st ++ [newLayer])%list;
           selectedLayerId := Some (Layer.id newLayer) |}
      /\ Layer.width newLayer = 150
      /\ Layer.height newLayer = 150 * naturalH / naturalW
      /\ Layer.x newLayer = px - 150 / 2
      /\ Layer.y newLayer = py - (150 * naturalH / naturalW) / 2
      /\ Layer.scale newLayer = 1
      /\ Layer.rotation newLayer = 0
      /\ Layer.brightness newLayer = 100
      /\ Layer.contrast newLayer = 100
      /\ Layer.isFixed newLayer = false.
Proof.
  intros e asset canvasBounds dims now st naturalW naturalH Hdims HW HH px py.
  unfold exec, handleCanvasDrop. rewrite Hdims.
  eexists. split; [reflexivity|]. simpl. unfold initialWidth. subst px py.
  repeat split; try reflexivity; field; lra.
Qed.

(** The scenario of the specification: an asset of natural size 200 x 100
    dropped at the canvas point (50, 50), the canvas being at (352, 64) in
    the viewport. *)
Lemma drop_creates_centered_layer_witness :
  let e := {| clientX := 402; clientY := 114 |} in
  let asset := Asset.mk "dragon-1" "https://i.imgur.com/vH1C2T6.png" in
  let canvasBounds := {| rect_left := 352; rect_top := 64;
                         rect_width := 800; rect_height := 600 |} in
  let dims := fun _ : string => Some (200, 100) in
  let st := {| layers := []; selectedLayerId := None |} in
  exists newLayer,
    layers (exec (handleCanvasDrop e (Some asset) (Some canvasBounds) dims
                                   1700000000000) st) = [newLayer]
    /\ Layer.width newLayer = 150
    /\ Layer.height newLayer = 75
    /\ Layer.x newLayer = -25
    /\ Layer.y newLayer = 25 / 2.
Proof.
  intros e asset canvasBounds dims st.
  assert (HW : 0 < 200) by lra.
  assert (HH : 0 < 100) by lra.
  destruct (drop_creates_centered_layer e asset canvasBounds dims
              1700000000000 st 200 100 eq_refl HW HH)
    as (newLayer & Hst & Hw & Hh & Hx & Hy & _).
  exists newLayer. rewrite Hst. split; [reflexivity|].
  split; [exact Hw|].
  split; [rewrite Hh; lra|].
  split; [rewrite Hx; simpl; lra | rewrite Hy; simpl; lra].
Defined.

(** ** Export *)

Lemma forallb_imagePromise (decodes : string -> bool) (ls : list Layer.t) :
  forallb isResolved (map (imagePromise decodes) ls)
  = forallb (fun l => decodes (Layer.src l)) ls.
Proof.
  induction ls as [|l ls IH]; simpl; [reflexivity|].
  rewrite IH. unfold imagePromise. now destruct (decodes (Layer.src l)).
Qed.

Lemma handleExport_run (decodes : string -> bool) (st : AppState) :
  handleExport decodes st =
  let fixedLayers := filter Layer.isFixed (layers st) in
  match fixedLayers with
  | [] => (Returned, st, [Alert noFixedMessage])
  | _ :: _ =>
      let b := boundingBox fixedLayers in
      if forallb (fun l => decodes (Layer.src l)) fixedLayers
      then (Returned, st,
            [Download "tattoo-collage.png"
               {| canvas_width := JS.sub (maxX b) (minX b);
                  canvas_height := JS.sub (maxY b) (minY b);
                  canvas_calls :=
                    map (drawLayer b)
                        (filter (fun l => decodes (Layer.src l)) fixedLayers)
               |}])
      else (Awaiting, st, [])
  end.
Proof.
  unfold handleExport, bind, readLayers. cbv zeta.
  destruct (filter Layer.isFixed (layers st)) as [|l ls] eqn:Hf.
  - reflexivity.
  - cbn [List.length Nat.eqb]. unfold Promise_all.
    rewrite forallb_imagePromise.
    destruct (forallb (fun l0 => decodes (Layer.src l0)) (l :: ls));
      reflexivity.
Qed.

(** C6. When no layer of the store is fixed, export shows the
    no-fixed-tattoos message and returns: that alert is its only effect (no
    file is downloaded) and the state, layers and selection, is the one it
    started from. *)
Theorem export_without_fixed_layers_alerts :
  forall (decodes : string -> bool) (st : AppState),
    (forall l, In l (layers st) -> Layer.isFixed l = false) ->
    handleExport decodes st = (Returned, st, [Alert noFixedMessage])
    /\ existsb isDownload (effects (handleExport decodes) st) = false
    /\ exec (handleExport decodes) st = st.
Proof.
  intros decodes st Hnone.
  assert (Hrun : handleExport decodes st = (Returned, st, [Alert noFixedMessage])).
  { rewrite handleExport_run.
    replace (filter Layer.isFixed (layers st)) with (@nil Layer.t);
      [reflexivity|].
    symmetry. induction (layers st) as [|l ls IH]; simpl; [reflexivity|].
    rewrite (Hnone l) by now left. apply IH. intros l' Hin.
    apply Hnone. now right. }
  unfold effects, exec. rewrite Hrun. repeat split.
Qed.

Lemma export_without_fixed_layers_alerts_witness :
  let st := {| layers := [sampleLayer "layer-1" 10 10 false;
                          sampleLayer "layer-2" 30 40 false];
               selectedLayerId := Some "layer-2" |} in
  handleExport (fun _ => true) st = (Returned, st, [Alert noFixedMessage]).
Proof.
  intros st.
  apply (export_without_fixed_layers_alerts (fun _ => true) st).
  intros l [<-|[<-|[]]]; reflexivity.
Defined.

(** *** The bounding box *)

Lemma minimum_Rmin (a r : R) (rs : list R) :
  minimum (Rmin a r) rs = Rmin a (minimum r rs).
Proof. destruct rs; simpl; [reflexivity | symmetry; apply Rmin_assoc]. Qed.

Lemma maximum_Rmax (a r : R) (rs : list R) :
  maximum (Rmax a r) rs = Rmax a (maximum r rs).
Proof. destruct rs; simpl; [reflexivity | symmetry; apply Rmax_assoc]. Qed.

(** The fold of the source, from a box whose four bounds are finite. *)
Lemma fold_growBox_finite (ls : list Layer.t) :
  forall x0 y0 x1 y1,
    fold_left growBox ls
      {| minX := JS.Fin x0; minY := JS.Fin y0;
         maxX := JS.Fin x1; maxY := JS.Fin y1 |}
    = {| minX := JS.Fin (minimum x0 (map Layer.x ls));
         minY := JS.Fin (minimum y0 (map Layer.y ls));
         maxX := JS.Fin (maximum x1 (map rightEdge ls));
         maxY := JS.Fin (maximum y1 (map bottomEdge ls)) |}.
Proof.
  induction ls as [|l ls IH]; intros x0 y0 x1 y1; simpl.
  - reflexivity.
  - unfold growBox at 2. simpl. rewrite IH.
    unfold JS.Math_min, JS.Math_max.
    rewrite !minimum_Rmin, !maximum_Rmax. reflexivity.
Qed.

(** The box the source computes for a non-empty list: the minima are the
    tight ones, the maxima are never below 0, the value [maxX] and [maxY]
    start from. *)
Lemma boundingBox_cons (l : Layer.t) (ls : list Layer.t) :
  boundingBox (l :: ls)
  = {| minX := JS.Fin (minimum (Layer.x l) (map Layer.x ls));
       minY := JS.Fin (minimum (Layer.y l) (map Layer.y ls));
       maxX := JS.Fin (Rmax 0 (maximum (rightEdge l) (map rightEdge ls)));
       maxY := JS.Fin (Rmax 0 (maximum (bottomEdge l) (map bottomEdge ls))) |}.
Proof.
  unfold boundingBox. simpl. unfold growBox at 2. simpl.
  rewrite fold_growBox_finite. unfold JS.Math_max.
  rewrite !maximum_Rmax. reflexivity.
Qed.

(** When some fixed layer reaches to the right of and below the canvas
    origin, the canvas has the size the specification gives. *)
Lemma exportCanvasSize_tight (st : AppState) (l : Layer.t) (ls : list Layer.t) :
  filter Layer.isFixed (layers st) = l :: ls ->
  0 <= maximum (rightEdge l) (map rightEdge ls) ->
  0 <= maximum (bottomEdge l) (map bottomEdge ls) ->
  exportCanvasSize (layers st)
  = (JS.Fin (fst (tightSize l ls)), JS.Fin (snd (tightSize l ls))).
Proof.
  intros Hf Hx Hy. unfold exportCanvasSize. rewrite Hf, boundingBox_cons.
  simpl. rewrite !Rmax_right by assumption. reflexivity.
Qed.

(** C3 fails on the code.  One fixed layer of size 150 x 75 at
    (-500, -500): its right and bottom edges are at -350 and -425, below
    the 0 that [maxX] and [maxY] start from, so the exported canvas is
    500 x 500 where the specification's box is 150 x 75. *)
Theorem export_canvas_reaches_to_origin :
  let l := sampleLayer "layer-1" (-500) (-500) true in
  let st := {| layers := [l]; selectedLayerId := None |} in
  (exists content,
      handleExport (fun _ => true) st
      = (Returned, st, [Download "tattoo-collage.png" content])
      /\ canvas_width content = JS.Fin 500
      /\ canvas_height content = JS.Fin 500)
  /\ exportCanvasSize (layers st) = (JS.Fin 500, JS.Fin 500)
  /\ tightSize l [] = (150, 75).
Proof.
  intros l st.
  assert (Hbox : boundingBox [l]
                 = {| minX := JS.Fin (-500); minY := JS.Fin (-500);
                      maxX := JS.Fin 0; maxY := JS.Fin 0 |}).
  { rewrite boundingBox_cons. simpl. unfold rightEdge, bottomEdge. simpl.
    rewrite !Rmax_left by lra. reflexivity. }
  split; [|split].
  - rewrite handleExport_run.
    change (filter Layer.isFixed (layers st)) with [l].
    cbv zeta. cbn [forallb andb]. rewrite Hbox.
    eexists. split; [reflexivity|]. simpl. split; f_equal; lra.
  - unfold exportCanvasSize.
    change (filter Layer.isFixed (layers st)) with [l].
    rewrite Hbox. simpl. f_equal; f_equal; lra.
  - unfold tightSize, rightEdge, bottomEdge. simpl. f_equal; lra.
Qed.

(** *** Images that fail to decode *)

(** When the image of some fixed layer does not decode, its promise stays
    pending, so does [Promise.all], and the export is suspended at its
    [await] for ever: no file, and no message either. *)
Lemma export_suspended_on_failed_decode (decodes : string -> bool)
    (st : AppState) (l : Layer.t) :
  In l (layers st) ->
  Layer.isFixed l = true ->
  decodes (Layer.src l) = false ->
  handleExport decodes st = (Awaiting, st, []).
Proof.
  intros Hin Hfixed Hfail.
  assert (Hl : In l (filter Layer.isFixed (layers st))).
  { apply filter_In. now split. }
  rewrite handleExport_run. cbv zeta.
  destruct (filter Layer.isFixed (layers st)) as [|l0 ls]; [destruct Hl|].
  destruct (forallb (fun l1 => decodes (Layer.src l1)) (l0 :: ls)) eqn:Hall;
    [|reflexivity].
  rewrite forallb_forall in Hall. specialize (Hall l Hl). congruence.
Qed.

Lemma filter_all {A : Type} (f : A -> bool) (xs : list A) :
  (forall a, In a xs -> f a = true) -> filter f xs = xs.
Proof.
  induction xs as [|a xs IH]; intros Hall; simpl; [reflexivity|].
  rewrite (Hall a) by now left. f_equal. apply IH.
  intros b Hb. apply Hall. now right.
Qed.

(** When every fixed layer's image decodes, the export downloads one file
    and returns. *)
Lemma export_downloads_when_all_decode (decodes : string -> bool)
    (st : AppState) (l : Layer.t) (ls : list Layer.t) :
  filter Layer.isFixed (layers st) = l :: ls ->
  (forall l', In l' (l :: ls) -> decodes (Layer.src l') = true) ->
  exists content,
    handleExport decodes st
    = (Returned, st, [Download "tattoo-collage.png" content])
    /\ (canvas_width content, canvas_height content)
       = exportCanvasSize (layers st)
    /\ canvas_calls content = map (drawLayer (boundingBox (l :: ls))) (l :: ls).
Proof.
  intros Hf Hall. rewrite handleExport_run. cbv zeta. rewrite Hf.
  assert (Hb : forallb (fun l0 => decodes (Layer.src l0)) (l :: ls) = true).
  { apply forallb_forall. exact Hall. }
  rewrite Hb. eexists. split; [reflexivity|]. simpl canvas_width.
  simpl canvas_height. simpl canvas_calls. split.
  - unfold exportCanvasSize. rewrite Hf. reflexivity.
  - f_equal.
    apply (filter_all (fun layer => decodes (Layer.src layer)) (l :: ls)).
    exact Hall.
Qed.

(** C4 fails on the code.  Two fixed layers, the image of the second one
    failing to decode: the export neither downloads a file nor shows any
    message; it stays suspended at its [await]. *)
Theorem export_silent_on_failed_decode :
  let good := sampleLayer "layer-1" 10 10 true in
  let bad := withSrc "blob:revoked" (sampleLayer "layer-2" 30 40 true) in
  let decodes := fun src => negb (String.eqb src "blob:revoked") in
  let st := {| layers := [good; bad]; selectedLayerId := None |} in
  decodes (Layer.src good) = true
  /\ decodes (Layer.src bad) = false
  /\ handleExport decodes st = (Awaiting, st, [])
  /\ effects (handleExport decodes) st = [].
Proof.
  intros good bad decodes st.
  assert (Hrun : handleExport decodes st = (Awaiting, st, [])).
  { apply (export_suspended_on_failed_decode decodes st bad).
    - simpl. right. now left.
    - reflexivity.
    - reflexivity. }
  split; [reflexivity|]. split; [reflexivity|]. split; [exact Hrun|].
  unfold effects. now rewrite Hrun.
Qed.

(** * Further properties *)

(** ** Updates in sequence *)

Lemma override_later {A : Type} (old : A) (first second : option A) :
  override (override old first) second = override old (later first second).
Proof. now destruct second. Qed.

Lemma spread_spread (l : Layer.t) (u1 u2 : Partial.t) :
  spread (spread l u1) u2 = spread l (overlay u1 u2).
Proof. unfold spread, overlay; simpl. now rewrite !override_later. Qed.

Lemma exec_update_layers (id : string) (u : Partial.t) (st : AppState) :
  exec (handleUpdateLayer id u) st
  = {| layers :=
         map (fun l => if String.eqb (Layer.id l) id then spread l u else l)
             (layers st);
       selectedLayerId := selectedLayerId st |}.
Proof. reflexivity. Qed.

Lemma exec_update_twice (st : AppState) (id : string) (u1 u2 : Partial.t) :
  Partial.id u1 = None ->
  exec (handleUpdateLayer id u2) (exec (handleUpdateLayer id u1) st)
  = exec (handleUpdateLayer id (overlay u1 u2)) st.
Proof.
  intros Hid. rewrite !exec_update_layers. simpl. f_equal.
  rewrite map_map. apply map_ext. intros l.
  destruct (String.eqb (Layer.id l) id) eqn:E.
  - assert (Hsame : Layer.id (spread l u1) = Layer.id l).
    { simpl. now rewrite Hid. }
    rewrite Hsame, E. apply spread_spread.
  - now rewrite E.
Qed.

(** X1. Two updates of the same id, the first of which does not rename the
    layer, amount to one update with the second partial laid over the
    first. *)
Theorem updates_of_one_layer_compose :
  forall (st : AppState) (id : string) (u1 u2 : Partial.t),
    Partial.id u1 = None ->
    exec (handleUpdateLayer id u2) (exec (handleUpdateLayer id u1) st)
    = exec (handleUpdateLayer id (overlay u1 u2)) st.
Proof. intros st id u1 u2 Hid. now apply exec_update_twice. Qed.

Lemma updates_of_one_layer_compose_witness :
  let st := {| layers := [sampleLayer "layer-1" 10 10 false];
               selectedLayerId := Some "layer-1" |} in
  layers (exec (handleUpdateLayer "layer-1" (update_scale 2))
               (exec (handleUpdateLayer "layer-1" (update_xy 40 25)) st))
  = layers (exec (handleUpdateLayer "layer-1"
                    (overlay (update_xy 40 25) (update_scale 2))) st).
Proof.
  intros st.
  now rewrite (updates_of_one_layer_compose st "layer-1" (update_xy 40 25)
                 (update_scale 2) eq_refl).
Defined.

(** ** Pointer moves *)

(** The partial a pointer-move passes to [onUpdate], if any. *)
Lemma handleMouseMove_update (layer : Layer.t) (e : MouseEvent)
    (interactionRef : option Interaction.t) :
  handleMouseMove layer handleUpdateLayer e interactionRef = ret tt
  \/ exists u,
      handleMouseMove layer handleUpdateLayer e interactionRef
      = handleUpdateLayer (Layer.id layer) u
      /\ Partial.id u = None /\ Partial.assetId u = None
      /\ Partial.src u = None /\ Partial.originalSrc u = None
      /\ Partial.width u = None /\ Partial.height u = None
      /\ Partial.brightness u = None /\ Partial.contrast u = None
      /\ Partial.isFixed u = None.
Proof.
  destruct interactionRef as [i|]; [|now left]. unfold handleMouseMove.
  destruct (Interaction.type i) as [[| |]|]; [right|right|right|now left];
    eexists; (split; [reflexivity|]); repeat split.
Qed.

(** X2. Within one interaction session the updates do not accumulate: the
    state after two pointer-moves is the state after the second one
    alone, whatever the kind of the session. *)
Theorem pointer_moves_do_not_accumulate :
  forall (layer : Layer.t) (i : Interaction.t) (e1 e2 : MouseEvent)
         (st : AppState),
    exec (handleMouseMove layer handleUpdateLayer e2 (Some i))
         (exec (handleMouseMove layer handleUpdateLayer e1 (Some i)) st)
    = exec (handleMouseMove layer handleUpdateLayer e2 (Some i)) st.
Proof.
  intros layer i e1 e2 st. unfold handleMouseMove.
  destruct (Interaction.type i) as [[| |]|];
    try (rewrite exec_update_twice by reflexivity; reflexivity).
  reflexivity.
Qed.

(** X3. A pointer-move shows nothing to the user and keeps the selection
    and the number and order of the layers; in each layer it changes at
    most position, scale and rotation, and it leaves alone every layer
    whose id is not the dragged one's. *)
Theorem pointer_move_changes_geometry_only :
  forall (layer : Layer.t) (e : MouseEvent)
         (interactionRef : option Interaction.t) (st : AppState),
    let move := handleMouseMove layer handleUpdateLayer e interactionRef in
    effects move st = []
    /\ selectedLayerId (exec move st) = selectedLayerId st
    /\ List.length (layers (exec move st)) = List.length (layers st)
    /\ forall n l,
        nth_error (layers st) n = Some l ->
        exists l', nth_error (layers (exec move st)) n = Some l'
                   /\ sameButGeometry l l'
                   /\ (Layer.id l <> Layer.id layer -> l' = l).
Proof.
  intros layer e iref st move. subst move.
  destruct (handleMouseMove_update layer e iref) as [Hret|(u & Hu & Hfields)].
  - rewrite Hret. repeat split. intros n l Hn. exists l.
    split; [exact Hn|]. split; [|reflexivity]. repeat split.
  - rewrite Hu. split; [reflexivity|]. split; [reflexivity|].
    split; [rewrite exec_update_layers; simpl; apply length_map|].
    intros n l Hn. rewrite (update_nth _ _ _ _ _ Hn).
    eexists. split; [reflexivity|].
    destruct Hfields as (H1 & H2 & H3 & H4 & H5 & H6 & H7 & H8 & H9).
    destruct (String.eqb_spec (Layer.id l) (Layer.id layer)) as [Heq|Hne].
    + split; [|congruence]. unfold sameButGeometry; simpl.
      rewrite H1, H2, H3, H4, H5, H6, H7, H8, H9. repeat split.
    + split; [|reflexivity]. repeat split.
Qed.

Lemma pointer_move_changes_geometry_only_witness :
  let dragged := sampleLayer "layer-1" 10 10 false in
  let other := sampleLayer "layer-2" 30 40 true in
  let i := Interaction.mk (Some Interaction.scale) 160 85 10 10 150 75
                          1 0 85 (95 / 2) in
  let e := {| clientX := 190; clientY := 125 |} in
  let st := {| layers := [dragged; other];
               selectedLayerId := Some "layer-1" |} in
  nth_error (layers (exec (handleMouseMove dragged handleUpdateLayer e
                                           (Some i)) st)) 1
  = Some other.
Proof.
  intros dragged other i e st.
  destruct (pointer_move_changes_geometry_only dragged e (Some i) st)
    as (_ & _ & _ & Hframe).
  destruct (Hframe 1%nat other eq_refl) as (l' & Hl' & _ & Hother).
  rewrite Hl'. f_equal. apply Hother. discriminate.
Defined.

(** X4. A Move interaction on a layer of the store that is not fixed: the
    pointer-down selects the layer, and a following pointer-move puts the
    layer at its position at pointer-down plus the displacement of the
    pointer, changing no other field of it. *)
Theorem move_interaction_follows_pointer :
  forall (layer : Layer.t) (rect canvasRect : DOMRect) (e0 e1 : MouseEvent)
         (st : AppState) (n : nat),
    Layer.isFixed layer = false ->
    nth_error (layers st) n = Some layer ->
    let down := handleMouseDown layer setSelectedLayerId rect canvasRect e0
                                Interaction.move None in
    let move := handleMouseMove layer handleUpdateLayer e1 (result down st) in
    let st' := exec move (exec down st) in
    selectedLayerId st' = Some (Layer.id layer)
    /\ nth_error (layers st') n
       = Some (spread layer
                 (update_xy (Layer.x layer + (clientX e1 - clientX e0))
                            (Layer.y layer + (clientY e1 - clientY e0)))).
Proof.
  intros layer rect canvasRect e0 e1 st n Hfree Hn down move st'.
  subst st' move down. unfold handleMouseDown, result, exec.
  rewrite Hfree. simpl. split; [reflexivity|].
  rewrite nth_error_map, Hn. simpl. now rewrite String.eqb_refl.
Qed.

(** The scenario of the specification: pointer-down at (100, 100) on a
    layer at (10, 10), pointer-move to (130, 115): the layer is at
    (40, 25). *)
Lemma move_interaction_follows_pointer_witness :
  let layer := sampleLayer "layer-1" 10 10 false in
  let rect := {| rect_left := 362; rect_top := 74;
                 rect_width := 150; rect_height := 75 |} in
  let canvasRect := {| rect_left := 352; rect_top := 64;
                       rect_width := 800; rect_height := 600 |} in
  let e0 := {| clientX := 100; clientY := 100 |} in
  let e1 := {| clientX := 130; clientY := 115 |} in
  let st := {| layers := [layer]; selectedLayerId := None |} in
  let down := handleMouseDown layer setSelectedLayerId rect canvasRect e0
                              Interaction.move None in
  let move := handleMouseMove layer handleUpdateLayer e1 (result down st) in
  exists l', nth_error (layers (exec move (exec down st))) 0 = Some l'
             /\ Layer.x l' = 40 /\ Layer.y l' = 25.
Proof.
  intros layer rect canvasRect e0 e1 st down move.
  destruct (move_interaction_follows_pointer layer rect canvasRect e0 e1 st
              0%nat eq_refl eq_refl) as (_ & Hnth).
  eexists. split; [exact Hnth|]. simpl. split; lra.
Defined.

(** X5. A session that is in flight when its layer gets fixed keeps
    moving it: after a pointer-down on a layer that is not fixed and the
    fix action on that layer, a pointer-move delivered to the session's
    listener puts the layer, now fixed, at a new position. *)
Theorem session_in_flight_moves_fixed_layer :
  forall (layer : Layer.t) (rect canvasRect : DOMRect) (e0 e1 : MouseEvent)
         (st : AppState) (n : nat),
    Layer.isFixed layer = false ->
    nth_error (layers st) n = Some layer ->
    let down := handleMouseDown layer setSelectedLayerId rect canvasRect e0
                                Interaction.move None in
    let fixed := exec (handleFixLayer (Layer.id layer)) (exec down st) in
    let move := handleMouseMove layer handleUpdateLayer e1 (result down st) in
    exists before after,
      nth_error (layers fixed) n = Some before
      /\ nth_error (layers (exec move fixed)) n = Some after
      /\ Layer.isFixed before = true
      /\ Layer.isFixed after = true
      /\ Layer.x before = Layer.x layer
      /\ Layer.y before = Layer.y layer
      /\ Layer.x after = Layer.x layer + (clientX e1 - clientX e0)
      /\ Layer.y after = Layer.y layer + (clientY e1 - clientY e0).
Proof.
  intros layer rect canvasRect e0 e1 st n Hfree Hn down fixed move.
  subst move fixed down. unfold handleMouseDown, result, exec.
  rewrite Hfree. simpl.
  rewrite !nth_error_map, Hn. simpl. rewrite String.eqb_refl. simpl.
  rewrite String.eqb_refl. do 2 eexists.
  split; [reflexivity|]. split; [reflexivity|]. simpl. repeat split.
Qed.

Lemma session_in_flight_moves_fixed_layer_witness :
  let layer := sampleLayer "layer-1" 10 10 false in
  let rect := {| rect_left := 362; rect_top := 74;
                 rect_width := 150; rect_height := 75 |} in
  let canvasRect := {| rect_left := 352; rect_top := 64;
                       rect_width := 800; rect_height := 600 |} in
  let e0 := {| clientX := 400; clientY := 100 |} in
  let e1 := {| clientX := 430; clientY := 115 |} in
  let st := {| layers := [layer]; selectedLayerId := None |} in
  let down := handleMouseDown layer setSelectedLayerId rect canvasRect e0
                              Interaction.move None in
  let fixed := exec (handleFixLayer "layer-1") (exec down st) in
  let move := handleMouseMove layer handleUpdateLayer e1 (result down st) in
  exists after,
    nth_error (layers (exec move fixed)) 0 = Some after
    /\ Layer.isFixed after = true
    /\ Layer.x after = 40.
Proof.
  intros layer rect canvasRect e0 e1 st down fixed move.
  destruct (session_in_flight_moves_fixed_layer layer rect canvasRect e0 e1
              st 0%nat eq_refl eq_refl)
    as (before & after & _ & Hafter & _ & Hfixed & _ & _ & Hx & _).
  exists after. split; [exact Hafter|]. split; [exact Hfixed|].
  rewrite Hx. simpl. lra.
Defined.

(** X6. A pointer-move of a Rotate interaction whose anchor rotation is in
    [0, 360) stores, in every layer of the store that has the dragged
    layer's id, a rotation strictly between -180 and 360; the stored
    rotation is the sum of the anchor rotation and the pointer's angle
    when that sum is below 360, negative sums included, and the sum minus
    360 otherwise. *)
Theorem rotate_interaction_stores_within_bounds :
  forall (layer : Layer.t) (i : Interaction.t) (e : MouseEvent)
         (st : AppState),
    Interaction.type i = Some Interaction.rotate ->
    0 <= Interaction.originalRotation i < 360 ->
    let sum := Interaction.originalRotation i + angleOnMove i e in
    let st' := exec (handleMouseMove layer handleUpdateLayer e (Some i)) st in
    forall n l,
      nth_error (layers st) n = Some l ->
      Layer.id l = Layer.id layer ->
      exists l', nth_error (layers st') n = Some l'
                 /\ -180 < Layer.rotation l' < 360
                 /\ (sum < 360 -> Layer.rotation l' = sum)
                 /\ (360 <= sum -> Layer.rotation l' = sum - 360).
Proof.
  intros layer i e st Htype Hrange sum st' n l Hn Hid.
  subst st'. unfold handleMouseMove. rewrite Htype.
  rewrite (update_nth _ _ _ _ _ Hn).
  apply String.eqb_eq in Hid. rewrite Hid.
  eexists. split; [reflexivity|]. simpl.
  destruct (rotationOnMove_cases i e Hrange) as (Hlow & Hhigh & Hbound).
  split; [exact Hbound|]. split; [exact Hlow | exact Hhigh].
Qed.

Lemma rotate_interaction_stores_within_bounds_witness :
  let layer := sampleLayer "layer-1" 100 100 false in
  let i := Interaction.mk (Some Interaction.rotate) 527 149 100 100 150 75
                          1 350 175 (275 / 2) in
  let e := {| clientX := 602; clientY := 149 |} in
  let st := {| layers := [layer]; selectedLayerId := Some "layer-1" |} in
  exists l',
    nth_error (layers (exec (handleMouseMove layer handleUpdateLayer e
                                             (Some i)) st)) 0 = Some l'
    /\ -180 < Layer.rotation l' < 360.
Proof.
  intros layer i e st.
  assert (Hrange : 0 <= Interaction.originalRotation i < 360)
    by (simpl; lra).
  destruct (rotate_interaction_stores_within_bounds layer i e st eq_refl
              Hrange 0%nat layer eq_refl eq_refl)
    as (l' & Hl' & Hbound & _).
  exists l'. split; [exact Hl' | exact Hbound].
Defined.

(** X7. The direction of a Scale interaction follows the horizontal
    displacement only: with the pointer to the right of where it went
    down the stored scale is at least the anchor scale, and otherwise
    (to the left, or straight up or down) it is at most the anchor scale,
    for an anchor scale of at least 0.1. *)
Theorem scale_direction_follows_horizontal_displacement :
  forall (i : Interaction.t) (e : MouseEvent),
    1 / 10 <= Interaction.originalScale i ->
    (clientX e > Interaction.startX i ->
     Interaction.originalScale i <= scaleOnMove i e)
    /\ (clientX e <= Interaction.startX i ->
        scaleOnMove i e <= Interaction.originalScale i).
Proof.
  intros i e Hanchor. unfold scaleOnMove, JS.Math_max, JS.Math_sqrt.
  set (d := sqrt _).
  assert (Hd : 0 <= d) by apply sqrt_pos.
  split; intros Hx;
    destruct (Rgt_dec (clientX e) (Interaction.startX i)) as [H|H];
    try lra.
  - eapply Rle_trans; [|apply Rmax_r]. lra.
  - apply Rmax_lub; lra.
Qed.

(** A drag straight down by 50 px from an anchor scale of 1 gives 0.5. *)
Lemma scale_direction_follows_horizontal_displacement_witness :
  let i := Interaction.mk (Some Interaction.scale) 160 85 10 10 150 75
                          1 0 85 (95 / 2) in
  let e := {| clientX := 160; clientY := 135 |} in
  scaleOnMove i e <= 1.
Proof.
  intros i e.
  assert (Hanchor : 1 / 10 <= Interaction.originalScale i) by (simpl; lra).
  apply (proj2 (scale_direction_follows_horizontal_displacement i e Hanchor)).
  simpl. lra.
Defined.

(** ** Delete and fix *)

Lemma exec_delete (id : string) (st : AppState) :
  exec (handleDeleteLayer id) st
  = {| layers := filter (fun l => negb (String.eqb (Layer.id l) id)) (layers st);
       selectedLayerId :=
         if selected_is (selectedLayerId st) id then None
         else selectedLayerId st |}.
Proof. unfold exec. now rewrite handleDeleteLayer_run. Qed.

Lemma exec_fix (id : string) (st : AppState) :
  exec (handleFixLayer id) st
  = {| layers :=
         map (fun l =>
                if String.eqb (Layer.id l) id then spread l fixUpdate else l)
             (layers st);
       selectedLayerId := None |}.
Proof. reflexivity. Qed.

Lemma in_layers_delete (id : string) (st : AppState) (l : Layer.t) :
  In l (layers (exec (handleDeleteLayer id) st))
  <-> In l (layers st) /\ Layer.id l <> id.
Proof.
  rewrite exec_delete. simpl. rewrite filter_In.
  destruct (String.eqb_spec (Layer.id l) id); simpl; intuition congruence.
Qed.

Lemma delete_keeps_selectionPresent (id : string) (st : AppState) :
  selectionPresent st -> selectionPresent (exec (handleDeleteLayer id) st).
Proof.
  intros Hsel. unfold selectionPresent in *. rewrite exec_delete. simpl.
  destruct (selected_is (selectedLayerId st) id) eqn:E; [exact I|].
  destruct (selectedLayerId st) as [s|]; [|exact I].
  apply in_map_iff in Hsel. destruct Hsel as (l & Hl & Hin).
  apply in_map_iff. exists l. split; [exact Hl|].
  apply filter_In. split; [exact Hin|].
  simpl in E. subst s. now rewrite E.
Qed.

(** After a delete no layer has the id, and a selection of that id is
    cleared. *)
Lemma delete_leaves_no_such_id (st : AppState) (id : string) :
  ~ In id (map Layer.id (layers (exec (handleDeleteLayer id) st)))
  /\ (selectedLayerId st = Some id ->
      selectedLayerId (exec (handleDeleteLayer id) st) = None).
Proof.
  split.
  - intros Hin. apply in_map_iff in Hin. destruct Hin as (l & Hl & Hin).
    apply in_layers_delete in Hin. tauto.
  - intros Hsel. rewrite exec_delete. simpl.
    apply selected_is_true in Hsel. now rewrite Hsel.
Qed.

(** X8. [deleteLayer(id)] removes every layer with that id and no other
    layer; it clears the selection when the selection is [id] and leaves
    it otherwise; it shows nothing to the user; deleting a second time
    changes nothing; and a selection that is [null] or names a layer of
    the store is still so afterwards. *)
Theorem deleteLayer_removes_exactly_that_id :
  forall (st : AppState) (id : string),
    let st' := exec (handleDeleteLayer id) st in
    ~ In id (map Layer.id (layers st'))
    /\ (forall l, In l (layers st') <-> In l (layers st) /\ Layer.id l <> id)
    /\ (selectedLayerId st = Some id -> selectedLayerId st' = None)
    /\ (selectedLayerId st <> Some id ->
        selectedLayerId st' = selectedLayerId st)
    /\ effects (handleDeleteLayer id) st = []
    /\ exec (handleDeleteLayer id) st' = st'
    /\ (selectionPresent st -> selectionPresent st').
Proof.
  intros st id st'.
  assert (Hgone : ~ In id (map Layer.id (layers st'))).
  { intros Hin. apply in_map_iff in Hin. destruct Hin as (l & Hl & Hin).
    apply in_layers_delete in Hin. tauto. }
  split; [exact Hgone|]. split; [apply in_layers_delete|].
  assert (Hkeep : selectedLayerId st <> Some id ->
                  selectedLayerId st' = selectedLayerId st).
  { intros Hsel. subst st'. rewrite exec_delete. simpl.
    destruct (selected_is (selectedLayerId st) id) eqn:E; [|reflexivity].
    apply selected_is_true in E. contradiction. }
  assert (Hclear : selectedLayerId st = Some id -> selectedLayerId st' = None).
  { intros Hsel. subst st'. rewrite exec_delete. simpl.
    apply selected_is_true in Hsel. now rewrite Hsel. }
  split; [exact Hclear|]. split; [exact Hkeep|].
  split; [unfold effects; now rewrite handleDeleteLayer_run|].
  split; [|apply delete_keeps_selectionPresent].
  rewrite (exec_delete id st').
  rewrite (filter_unknown_id _ _ Hgone).
  destruct (selected_is (selectedLayerId st') id) eqn:E.
  - apply selected_is_true in E.
    destruct (selected_is (selectedLayerId st) id) eqn:E0.
    + apply selected_is_true in E0. rewrite (Hclear E0) in E. discriminate.
    + assert (Hne : selectedLayerId st <> Some id).
      { intros H. apply selected_is_true in H. congruence. }
      rewrite (Hkeep Hne) in E. contradiction.
  - now destruct st'.
Qed.

Lemma deleteLayer_removes_exactly_that_id_witness :
  let st := {| layers := [sampleLayer "layer-1" 10 10 false;
                          sampleLayer "layer-2" 30 40 true];
               selectedLayerId := Some "layer-1" |} in
  selectedLayerId st = Some "layer-1"
  /\ selectedLayerId (exec (handleDeleteLayer "layer-1") st) = None
  /\ layers (exec (handleDeleteLayer "layer-1") st)
     = [sampleLayer "layer-2" 30 40 true].
Proof.
  intros st. split; [reflexivity|].
  destruct (deleteLayer_removes_exactly_that_id st "layer-1")
    as (_ & _ & Hclear & _).
  split; [apply Hclear; reflexivity | reflexivity].
Defined.

(** X9. The fix action keeps the number and order of the layers and shows
    nothing to the user; the layer at each position is left as it is when
    its id differs from [id] or when it is fixed already, and otherwise
    becomes fixed with every other field unchanged; fixing a second time
    changes nothing. *)
Theorem fixLayer_locks_exactly_that_id :
  forall (st : AppState) (id : string),
    let st' := exec (handleFixLayer id) st in
    List.length (layers st') = List.length (layers st)
    /\ effects (handleFixLayer id) st = []
    /\ (forall n l,
          nth_error (layers st) n = Some l ->
          exists l', nth_error (layers st') n = Some l'
            /\ sameButLock l l'
            /\ (Layer.id l = id -> Layer.isFixed l' = true)
            /\ (Layer.id l <> id -> l' = l)
            /\ (Layer.isFixed l = true -> l' = l))
    /\ exec (handleFixLayer id) st' = st'.
Proof.
  intros st id st'. subst st'. rewrite !exec_fix. simpl.
  split; [apply length_map|]. split; [reflexivity|]. split.
  - intros n l Hn. rewrite nth_error_map, Hn. simpl.
    eexists. split; [reflexivity|].
    destruct (String.eqb_spec (Layer.id l) id) as [Heq|Hne].
    + split; [repeat split|]. split; [reflexivity|].
      split; [congruence|]. intros Hfixed. destruct l; simpl in *.
      now subst.
    + split; [repeat split|]. split; [congruence|]. split; reflexivity.
  - f_equal. rewrite map_map. apply map_ext. intros l.
    destruct (String.eqb (Layer.id l) id) eqn:E.
    + change (Layer.id (spread l fixUpdate)) with (Layer.id l). now rewrite E.
    + now rewrite E.
Qed.

Lemma fixLayer_locks_exactly_that_id_witness :
  let st := {| layers := [sampleLayer "layer-1" 10 10 false;
                          sampleLayer "layer-2" 30 40 false];
               selectedLayerId := Some "layer-1" |} in
  exists l',
    nth_error (layers (exec (handleFixLayer "layer-1") st)) 0 = Some l'
    /\ Layer.isFixed l' = true.
Proof.
  intros st.
  destruct (fixLayer_locks_exactly_that_id st "layer-1") as (_ & _ & Hnth & _).
  destruct (Hnth 0%nat (sampleLayer "layer-1" 10 10 false) eq_refl)
    as (l' & Hl' & _ & Hfixed & _).
  exists l'. split; [exact Hl' | apply Hfixed; reflexivity].
Defined.

(** ** The properties panel *)

Lemma ids_after_update (id : string) (u : Partial.t) (st : AppState) :
  Partial.id u = None ->
  map Layer.id (layers (exec (handleUpdateLayer id u) st))
  = map Layer.id (layers st).
Proof.
  intros Hid. rewrite exec_update_layers. simpl. rewrite map_map.
  apply map_ext. intros l. destruct (String.eqb (Layer.id l) id);
    [simpl; now rewrite Hid | reflexivity].
Qed.

Lemma selectedLayerOf_some (st : AppState) (l : Layer.t) :
  selectedLayerOf st = Some l ->
  In l (layers st) /\ selectedLayerId st = Some (Layer.id l).
Proof.
  unfold selectedLayerOf. intros H. apply find_some in H.
  destruct H as (Hin & Hsel). split; [exact Hin|].
  now apply selected_is_true.
Qed.

Lemma selectedLayerOf_none (ls : list Layer.t) :
  selectedLayerOf {| layers := ls; selectedLayerId := None |} = None.
Proof. unfold selectedLayerOf. simpl. induction ls; simpl; auto. Qed.

(** The first layer that has the selected id, after a map that keeps ids. *)
Lemma find_selected_map (sel : option string) (f : Layer.t -> Layer.t)
    (ls : list Layer.t) :
  (forall l, Layer.id (f l) = Layer.id l) ->
  find (fun l => selected_is sel (Layer.id l)) (map f ls)
  = option_map f (find (fun l => selected_is sel (Layer.id l)) ls).
Proof.
  intros Hid. induction ls as [|l ls IH]; simpl; [reflexivity|].
  rewrite Hid. destruct (selected_is sel (Layer.id l)); [reflexivity|exact IH].
Qed.

(** X10. With a selected layer that is not fixed, the panel's actions do
    this: a slider change keeps the selection and the panel goes on
    showing the controls, now for the layer with the slider's field set;
    the fix button fixes every layer that has the selected id and clears
    the selection, so the panel shows its placeholder; the delete button
    leaves no layer with the selected id and clears the selection. *)
Theorem panel_actions_on_selected_layer :
  forall (st : AppState) (l : Layer.t),
    selectedLayerOf st = Some l ->
    Layer.isFixed l = false ->
    (forall prop value,
        let st' := exec (dispatch (PanelClick (SliderChange prop value))) st in
        selectedLayerId st' = selectedLayerId st
        /\ selectedLayerOf st' = Some (spread l (slider_update prop value))
        /\ rendersControls (selectedLayerOf st') = true)
    /\ (let st' := exec (dispatch (PanelClick FixClick)) st in
        selectedLayerId st' = None
        /\ rendersControls (selectedLayerOf st') = false
        /\ forall l', In l' (layers st') -> Layer.id l' = Layer.id l ->
                      Layer.isFixed l' = true)
    /\ (let st' := exec (dispatch (PanelClick DeleteClick)) st in
        selectedLayerId st' = None
        /\ rendersControls (selectedLayerOf st') = false
        /\ ~ In (Layer.id l) (map Layer.id (layers st'))).
Proof.
  intros st l Hsel Hfree.
  destruct (selectedLayerOf_some st l Hsel) as (Hin & Hid).
  assert (Hpanel : forall a,
    exec (dispatch (PanelClick a)) st
    = exec (match a with
            | SliderChange prop value =>
                handleUpdateLayer (Layer.id l) (slider_update prop value)
            | FixClick => handleFixLayer (Layer.id l)
            | DeleteClick => handleDeleteLayer (Layer.id l)
            end) st).
  { intros a. unfold exec, dispatch, PropertiesPanel.
    rewrite Hsel, Hfree. reflexivity. }
  split; [|split].
  - intros prop value st'. subst st'. rewrite Hpanel.
    assert (Hkeep : Partial.id (slider_update prop value) = None)
      by now destruct prop.
    split; [reflexivity|].
    assert (Hfind : selectedLayerOf
                      (exec (handleUpdateLayer (Layer.id l)
                               (slider_update prop value)) st)
                    = Some (spread l (slider_update prop value))).
    { rewrite exec_update_layers. unfold selectedLayerOf. simpl.
      rewrite find_selected_map.
      - unfold selectedLayerOf in Hsel. rewrite Hsel. simpl.
        now rewrite String.eqb_refl.
      - intros l0. destruct (String.eqb (Layer.id l0) (Layer.id l));
          [simpl; now rewrite Hkeep | reflexivity]. }
    split; [exact Hfind|]. rewrite Hfind. simpl.
    destruct prop; simpl; now rewrite Hfree.
  - intros st'. subst st'. rewrite Hpanel, exec_fix.
    split; [reflexivity|]. rewrite selectedLayerOf_none.
    split; [reflexivity|]. simpl. intros l' Hl' Hsame.
    apply in_map_iff in Hl'. destruct Hl' as (l0 & Hl0 & _).
    destruct (String.eqb_spec (Layer.id l0) (Layer.id l)) as [Heq|Hne].
    + now subst l'.
    + subst l'. contradiction.
  - intros st'. subst st'. rewrite Hpanel.
    destruct (delete_leaves_no_such_id st (Layer.id l))
      as (Hgone & Hclear).
    rewrite (Hclear Hid). split; [reflexivity|]. split; [|exact Hgone].
    unfold selectedLayerOf. rewrite (Hclear Hid).
    destruct (find _ _) eqn:E; [|reflexivity].
    apply find_some in E. destruct E as (_ & E). discriminate E.
Qed.

Lemma panel_actions_on_selected_layer_witness :
  let l := sampleLayer "layer-1" 10 10 false in
  let st := {| layers := [l; sampleLayer "layer-2" 30 40 false];
               selectedLayerId := Some "layer-1" |} in
  selectedLayerOf st = Some l
  /\ selectedLayerOf
       (exec (dispatch (PanelClick (SliderChange prop_brightness 120))) st)
     = Some (spread l (update_brightness 120))
  /\ rendersControls
       (selectedLayerOf (exec (dispatch (PanelClick FixClick)) st)) = false.
Proof.
  intros l st.
  destruct (panel_actions_on_selected_layer st l eq_refl eq_refl)
    as (Hslider & (_ & Hplaceholder & _) & _).
  split; [reflexivity|].
  split; [exact (proj1 (proj2 (Hslider prop_brightness 120)))|].
  exact Hplaceholder.
Defined.

(** ** What every sequence of user events keeps *)

Lemma exec_export (decodes : string -> bool) (st : AppState) :
  exec (handleExport decodes) st = st.
Proof.
  unfold exec. rewrite handleExport_run. cbv zeta.
  destruct (filter Layer.isFixed (layers st)); [reflexivity|].
  now destruct (forallb _ _).
Qed.

(** What a drop that goes through does to the state. *)
Lemma exec_drop (e : MouseEvent) (assetJSON : option Asset.t)
    (canvasBounds : option DOMRect)
    (getImageDimensions : string -> option (R * R)) (now : N)
    (st : AppState) :
  exec (handleCanvasDrop e assetJSON canvasBounds getImageDimensions now) st
  = st
  \/ exists newLayer,
      Layer.id newLayer = layerId now
      /\ exec (handleCanvasDrop e assetJSON canvasBounds getImageDimensions
                                now) st
         = {| layers := (layers st ++ [newLayer])%list;
              selectedLayerId := Some (layerId now) |}.
Proof.
  unfold handleCanvasDrop.
  destruct assetJSON as [asset|]; [|now left].
  destruct canvasBounds as [cb|]; [|now left].
  destruct (getImageDimensions (Asset.src asset)) as [[w h]|]; [|now left].
  right. eexists. split; [|reflexivity]. reflexivity.
Qed.

Lemma ids_after_filter (id : string) (ls : list Layer.t) :
  map Layer.id (filter (fun l => negb (String.eqb (Layer.id l) id)) ls)
  = filter (fun s => negb (String.eqb s id)) (map Layer.id ls).
Proof.
  induction ls as [|l0 ls IH]; simpl; [reflexivity|].
  destruct (String.eqb (Layer.id l0) id); simpl;
    [exact IH | now rewrite IH].
Qed.

(** What an event does to the ids of the store: it keeps some of them, in
    order, or it is a drop that appends the id made from its time. *)
Lemma ids_after_dispatch (ev : UIEvent) (st : AppState) :
  (exists keep,
      map Layer.id (layers (exec (dispatch ev) st))
      = filter keep (map Layer.id (layers st)))
  \/ (exists e assetJSON canvasBounds getImageDimensions now,
        ev = CanvasDrop e assetJSON canvasBounds getImageDimensions now
        /\ map Layer.id (layers (exec (dispatch ev) st))
           = (map Layer.id (layers st) ++ [layerId now])%list).
Proof.
  assert (Hsame : forall st', layers st' = layers st ->
            exists keep, map Layer.id (layers st')
                         = filter keep (map Layer.id (layers st))).
  { intros st' H. exists (fun _ => true). rewrite H. symmetry.
    apply filter_all. reflexivity. }
  assert (Hids : forall st', map Layer.id (layers st') = map Layer.id (layers st) ->
            exists keep, map Layer.id (layers st')
                         = filter keep (map Layer.id (layers st))).
  { intros st' H. exists (fun _ => true). rewrite H. symmetry.
    apply filter_all. reflexivity. }
  destruct ev as [e a cb dims now| |n|n rect canvasRect e type|layer e iref|a
                  |decodes].
  - destruct (exec_drop e a cb dims now st) as [H|(l & Hl & H)].
    + left. apply Hsame. simpl. now rewrite H.
    + right. exists e, a, cb, dims, now. split; [reflexivity|].
      simpl. rewrite H. simpl. rewrite map_app. simpl. now rewrite Hl.
  - left. now apply Hsame.
  - left. apply Hsame. unfold exec, dispatch, bind, readLayers. simpl.
    now destruct (nth_error (layers st) n).
  - left. apply Hsame. unfold exec, dispatch, bind, readLayers. simpl.
    destruct (nth_error (layers st) n) as [layer|]; [|reflexivity].
    unfold handleMouseDown. now destruct (Layer.isFixed layer).
  - left. simpl.
    destruct (handleMouseMove_update layer e iref) as [H|(u & H & Hid & _)];
      rewrite H.
    + now apply Hsame.
    + apply Hids. now apply ids_after_update.
  - left. simpl. unfold exec, PropertiesPanel.
    destruct (selectedLayerOf st) as [l|]; [|now apply Hsame].
    destruct (Layer.isFixed l); [now apply Hsame|].
    destruct a as [prop value| |].
    + apply Hids. apply (ids_after_update (Layer.id l)). now destruct prop.
    + apply Hids. apply (ids_after_update (Layer.id l)). reflexivity.
    + exists (fun s => negb (String.eqb s (Layer.id l))).
      fold (exec (handleDeleteLayer (Layer.id l)) st).
      rewrite exec_delete. simpl. apply ids_after_filter.
  - left. apply Hsame. simpl. unfold exec, bind.
    pose proof (exec_export decodes st) as Hexp. unfold exec in Hexp.
    destruct (handleExport decodes st) as [[status st1] log]. simpl in *.
    now rewrite Hexp.
Qed.

Lemma dispatch_keeps_selectionPresent (ev : UIEvent) (st : AppState) :
  selectionPresent st -> selectionPresent (exec (dispatch ev) st).
Proof.
  intros Hsel.
  destruct ev as [e a cb dims now| |n|n rect canvasRect e type|layer e iref|a
                  |decodes].
  - simpl. destruct (exec_drop e a cb dims now st) as [H|(l & Hl & H)];
      rewrite H; [exact Hsel|].
    unfold selectionPresent. simpl. rewrite map_app. apply in_or_app.
    right. simpl. now left.
  - exact I.
  - unfold exec, dispatch, bind, readLayers. simpl.
    destruct (nth_error (layers st) n) as [layer|] eqn:E; [|exact Hsel].
    unfold selectionPresent. simpl. apply in_map.
    eapply nth_error_In. exact E.
  - unfold exec, dispatch, bind, readLayers. simpl.
    destruct (nth_error (layers st) n) as [layer|] eqn:E; [|exact Hsel].
    unfold handleMouseDown. destruct (Layer.isFixed layer); [exact Hsel|].
    unfold selectionPresent. simpl. apply in_map.
    eapply nth_error_In. exact E.
  - simpl.
    destruct (handleMouseMove_update layer e iref) as [H|(u & H & Hid & _)];
      rewrite H; [exact Hsel|].
    unfold selectionPresent.
    rewrite (ids_after_update _ _ _ Hid). exact Hsel.
  - simpl. unfold exec, PropertiesPanel.
    destruct (selectedLayerOf st) as [l|]; [|exact Hsel].
    destruct (Layer.isFixed l); [exact Hsel|].
    destruct a as [prop value| |].
    + fold (exec (handleUpdateLayer (Layer.id l) (slider_update prop value)) st).
      unfold selectionPresent. rewrite ids_after_update by now destruct prop.
      exact Hsel.
    + exact I.
    + now apply delete_keeps_selectionPresent.
  - simpl. unfold exec, bind.
    destruct (handleExport decodes st) as [[status st1] log]. exact I.
Qed.

(** X11. After every sequence of user events from the initial state, the
    selection is [null] or is the id of a layer of the store. *)
Theorem selection_names_a_layer_after_any_events :
  forall (evs : list UIEvent),
    selectionPresent (runEvents evs initialState).
Proof.
  intros evs. unfold runEvents.
  assert (H : forall st, selectionPresent st ->
                         selectionPresent
                           (fold_left (fun s ev => exec (dispatch ev) s) evs st)).
  { induction evs as [|ev evs IH]; intros st Hst; simpl; [exact Hst|].
    apply IH. now apply dispatch_keeps_selectionPresent. }
  apply H. exact I.
Qed.

(** ** Layer ids *)

Lemma layerId_injective (a b : N) : layerId a = layerId b -> a = b.
Proof.
  unfold layerId. simpl. intros H. injection H as H.
  apply (f_equal NilEmpty.uint_of_string) in H.
  rewrite !NilEmpty.usu in H. injection H as H.
  apply (f_equal N.of_uint) in H.
  now rewrite !DecimalN.Unsigned.of_to in H.
Qed.

Lemma dropTimes_cons (ev : UIEvent) (evs : list UIEvent) (t : N) :
  In t (dropTimes evs) -> In t (dropTimes (ev :: evs)).
Proof. destruct ev; simpl; auto. Qed.

Lemma dropTimes_NoDup_tail (ev : UIEvent) (evs : list UIEvent) :
  NoDup (dropTimes (ev :: evs)) -> NoDup (dropTimes evs).
Proof. destruct ev; simpl; auto. intros H. now inversion H. Qed.

Lemma unique_ids_preserved (evs : list UIEvent) :
  forall st,
    NoDup (map Layer.id (layers st)) ->
    (forall s, In s (map Layer.id (layers st)) ->
               exists t, s = layerId t /\ ~ In t (dropTimes evs)) ->
    NoDup (dropTimes evs) ->
    NoDup (map Layer.id (layers (runEvents evs st))).
Proof.
  induction evs as [|ev evs IH]; intros st Hnodup Hform Htimes;
    [exact Hnodup|].
  unfold runEvents. simpl. apply IH; clear IH.
  - destruct (ids_after_dispatch ev st)
      as [(keep & Hids)|(e & a & cb & dims & now & Hev & Hids)];
      rewrite Hids.
    + now apply NoDup_filter.
    + apply NoDup_app; [exact Hnodup | repeat constructor; intros [] |].
      intros s Hs [Heq|[]]. destruct (Hform s Hs) as (t & Ht & Hfresh).
      rewrite Ht in Heq. apply layerId_injective in Heq.
      apply Hfresh. rewrite Hev. simpl. now left.
  - intros s Hs.
    destruct (ids_after_dispatch ev st)
      as [(keep & Hids)|(e & a & cb & dims & now & Hev & Hids)];
      rewrite Hids in Hs.
    + apply filter_In in Hs. destruct Hs as (Hs & _).
      destruct (Hform s Hs) as (t & Ht & Hfresh). exists t.
      split; [exact Ht|]. intros Hin. apply Hfresh.
      now apply dropTimes_cons.
    + apply in_app_or in Hs. destruct Hs as [Hs|[Hs|[]]].
      * destruct (Hform s Hs) as (t & Ht & Hfresh). exists t.
        split; [exact Ht|]. intros Hin. apply Hfresh.
        now apply dropTimes_cons.
      * exists now. split; [now symmetry|]. subst ev. simpl in Htimes.
        now inversion Htimes.
  - eapply dropTimes_NoDup_tail. exact Htimes.
Qed.

(** X12. When the drops among a sequence of user events happen at
    pairwise different times ([Date.now()]), the layers of the store
    reached from the initial state have pairwise different ids. *)
Theorem layer_ids_unique_when_drop_times_differ :
  forall (evs : list UIEvent),
    NoDup (dropTimes evs) ->
    NoDup (map Layer.id (layers (runEvents evs initialState))).
Proof.
  intros evs Htimes. apply unique_ids_preserved.
  - constructor.
  - intros s [].
  - exact Htimes.
Qed.

Lemma layer_ids_unique_when_drop_times_differ_witness :
  let e := {| clientX := 402; clientY := 114 |} in
  let asset := Asset.mk "dragon-1" "https://i.imgur.com/vH1C2T6.png" in
  let canvasBounds := {| rect_left := 352; rect_top := 64;
                         rect_width := 800; rect_height := 600 |} in
  let dims := fun _ : string => Some (200, 100) in
  let evs := [CanvasDrop e (Some asset) (Some canvasBounds) dims
                         1700000000000;
              PanelClick FixClick;
              CanvasDrop e (Some asset) (Some canvasBounds) dims
                         1700000000001] in
  NoDup (dropTimes evs)
  /\ NoDup (map Layer.id (layers (runEvents evs initialState))).
Proof.
  intros e asset canvasBounds dims evs.
  assert (Htimes : NoDup (dropTimes evs)).
  { simpl. repeat constructor; simpl; intuition discriminate. }
  split; [exact Htimes|].
  exact (layer_ids_unique_when_drop_times_differ evs Htimes).
Defined.

(** X13. Two drops at the same time ([Date.now()]) create two layers with
    one id; an update addressed to that id is then applied to both of
    them, and a delete removes both. *)
Theorem drops_at_one_time_share_an_id :
  forall (e1 e2 : MouseEvent) (asset1 asset2 : Asset.t)
         (bounds1 bounds2 : DOMRect)
         (getImageDimensions : string -> option (R * R)) (now : N)
         (st : AppState),
    getImageDimensions (Asset.src asset1) <> None ->
    getImageDimensions (Asset.src asset2) <> None ->
    let st' :=
      exec (handleCanvasDrop e2 (Some asset2) (Some bounds2)
                             getImageDimensions now)
           (exec (handleCanvasDrop e1 (Some asset1) (Some bounds1)
                                   getImageDimensions now) st) in
    exists l1 l2,
      layers st' = (layers st ++ [l1; l2])%list
      /\ Layer.id l1 = layerId now
      /\ Layer.id l2 = layerId now
      /\ (forall updates, exists before,
            layers (exec (handleUpdateLayer (layerId now) updates) st')
            = (before ++ [spread l1 updates; spread l2 updates])%list)
      /\ (forall l, In l (layers (exec (handleDeleteLayer (layerId now)) st'))
                    -> In l (layers st)).
Proof.
  intros e1 e2 asset1 asset2 bounds1 bounds2 dims now st H1 H2 st'.
  subst st'. unfold handleCanvasDrop.
  destruct (dims (Asset.src asset1)) as [[w1 h1]|]; [|contradiction].
  destruct (dims (Asset.src asset2)) as [[w2 h2]|]; [|contradiction].
  do 2 eexists. split.
  { unfold exec. simpl. rewrite <- app_assoc. reflexivity. }
  split; [reflexivity|]. split; [reflexivity|]. split.
  - intros updates. eexists. rewrite exec_update_layers.
    unfold exec. simpl. rewrite <- app_assoc, map_app. simpl.
    rewrite !String.eqb_refl. reflexivity.
  - intros l Hl. apply in_layers_delete in Hl. destruct Hl as (Hin & Hne).
    unfold exec in Hin. simpl in Hin. rewrite <- app_assoc in Hin.
    apply in_app_or in Hin. destruct Hin as [Hin|[Hin|[Hin|[]]]];
      [exact Hin| |]; subst l; exfalso; apply Hne; reflexivity.
Qed.

Lemma drops_at_one_time_share_an_id_witness :
  let e := {| clientX := 402; clientY := 114 |} in
  let asset := Asset.mk "dragon-1" "https://i.imgur.com/vH1C2T6.png" in
  let canvasBounds := {| rect_left := 352; rect_top := 64;
                         rect_width := 800; rect_height := 600 |} in
  let dims := fun _ : string => Some (200, 100) in
  let drop := handleCanvasDrop e (Some asset) (Some canvasBounds) dims
                               1700000000000 in
  exists l1 l2,
    layers (exec drop (exec drop initialState)) = [l1; l2]
    /\ Layer.id l1 = Layer.id l2.
Proof.
  intros e asset canvasBounds dims drop.
  assert (Hdims : dims (Asset.src asset) <> None) by discriminate.
  destruct (drops_at_one_time_share_an_id e e asset asset canvasBounds
              canvasBounds dims 1700000000000 initialState Hdims Hdims)
    as (l1 & l2 & Hlayers & Hid1 & Hid2 & _).
  exists l1, l2. split; [exact Hlayers | congruence].
Defined.

(** ** More on export *)

(** X14. Export never changes the state.  When some layer is fixed and the
    image of every fixed layer decodes, it downloads exactly one file,
    [tattoo-collage.png], and returns; the canvas then has received one
    draw call for each fixed layer and none for any other layer, each with
    the layer's brightness, contrast and source, the rotation in radians,
    and the image drawn at its scaled size around the translated origin.
    (The calls are listed by layer; in time they run as the images finish
    loading.) *)
Theorem export_draws_every_fixed_layer :
  forall (decodes : string -> bool) (st : AppState),
    let fixedLayers := filter Layer.isFixed (layers st) in
    exec (handleExport decodes) st = st
    /\ (fixedLayers <> [] ->
        (forall l, In l fixedLayers -> decodes (Layer.src l) = true) ->
        exists content,
          handleExport decodes st
          = (Returned, st, [Download "tattoo-collage.png" content])
          /\ List.length (canvas_calls content) = List.length fixedLayers
          /\ forall n l,
              nth_error fixedLayers n = Some l ->
              exists call,
                nth_error (canvas_calls content) n = Some call
                /\ image_src call = Layer.src l
                /\ filter_brightness call = Layer.brightness l
                /\ filter_contrast call = Layer.contrast l
                /\ rotate_angle call = Layer.rotation l * PI / 180
                /\ image_dw call = Layer.width l * Layer.scale l
                /\ image_dh call = Layer.height l * Layer.scale l
                /\ image_dx call = - image_dw call / 2
                /\ image_dy call = - image_dh call / 2).
Proof.
  intros decodes st fixedLayers. split; [apply exec_export|].
  intros Hsome Hall. subst fixedLayers.
  destruct (filter Layer.isFixed (layers st)) as [|l ls] eqn:Hf;
    [contradiction|].
  destruct (export_downloads_when_all_decode decodes st l ls Hf Hall)
    as (content & Hrun & _ & Hcalls).
  exists content. split; [exact Hrun|]. rewrite Hcalls.
  split; [apply length_map|].
  intros n l0 Hn. rewrite nth_error_map, Hn. simpl.
  eexists. split; [reflexivity|]. simpl. repeat split.
Qed.

Lemma export_draws_every_fixed_layer_witness :
  let st := {| layers := [sampleLayer "layer-1" 10 10 true;
                          sampleLayer "layer-2" 30 40 false;
                          sampleLayer "layer-3" 50 60 true];
               selectedLayerId := Some "layer-2" |} in
  exists content,
    handleExport (fun _ => true) st
    = (Returned, st, [Download "tattoo-collage.png" content])
    /\ List.length (canvas_calls content) = 2%nat.
Proof.
  intros st.
  destruct (export_draws_every_fixed_layer (fun _ => true) st)
    as (_ & Hdownload).
  destruct Hdownload as (content & Hrun & Hlen & _).
  - discriminate.
  - reflexivity.
  - exists content. split; [exact Hrun | exact Hlen].
Defined.

(** *** The box does not depend on the order of the layers *)

Lemma JS_min_swap (m : JS.number) (a b : R) :
  JS.min (JS.min m (JS.Fin a)) (JS.Fin b)
  = JS.min (JS.min m (JS.Fin b)) (JS.Fin a).
Proof.
  destruct m; simpl; try reflexivity; f_equal; unfold JS.Math_min.
  - rewrite <- !Rmin_assoc. f_equal. apply Rmin_comm.
  - apply Rmin_comm.
Qed.

Lemma JS_max_swap (m : JS.number) (a b : R) :
  JS.max (JS.max m (JS.Fin a)) (JS.Fin b)
  = JS.max (JS.max m (JS.Fin b)) (JS.Fin a).
Proof.
  destruct m; simpl; try reflexivity; f_equal; unfold JS.Math_max.
  - rewrite <- !Rmax_assoc. f_equal. apply Rmax_comm.
  - apply Rmax_comm.
Qed.

Lemma growBox_swap (b : BoundingBox) (l1 l2 : Layer.t) :
  growBox (growBox b l1) l2 = growBox (growBox b l2) l1.
Proof.
  unfold growBox. simpl.
  now rewrite (JS_min_swap (minX b)), (JS_min_swap (minY b)),
              (JS_max_swap (maxX b)), (JS_max_swap (maxY b)).
Qed.

Lemma fold_growBox_permutation (ls ls' : list Layer.t) :
  Permutation ls ls' ->
  forall b, fold_left growBox ls b = fold_left growBox ls' b.
Proof.
  induction 1 as [|l ls ls' _ IH|l1 l2 ls|ls1 ls2 ls3 _ IH1 _ IH2];
    intros b; simpl.
  - reflexivity.
  - apply IH.
  - now rewrite growBox_swap.
  - now rewrite IH1.
Qed.

Lemma filter_permutation {A : Type} (f : A -> bool) (xs ys : list A) :
  Permutation xs ys -> Permutation (filter f xs) (filter f ys).
Proof.
  induction 1 as [|x xs ys _ IH|x y xs|xs ys zs _ IH1 _ IH2]; simpl.
  - constructor.
  - destruct (f x); [now constructor | exact IH].
  - destruct (f x), (f y); try apply Permutation_refl. constructor.
  - now transitivity (filter f ys).
Qed.

(** X15. The size of the export canvas does not depend on the order of
    the layers in the store: two stores that hold the same layers in
    different orders give the same canvas width and height. *)
Theorem export_canvas_size_ignores_layer_order :
  forall (ls ls' : list Layer.t),
    Permutation ls ls' ->
    exportCanvasSize ls = exportCanvasSize ls'.
Proof.
  intros ls ls' Hperm. unfold exportCanvasSize, boundingBox.
  now rewrite (fold_growBox_permutation _ _
                 (filter_permutation Layer.isFixed _ _ Hperm)).
Qed.

Lemma export_canvas_size_ignores_layer_order_witness :
  let a := sampleLayer "layer-1" 10 10 true in
  let b := sampleLayer "layer-2" 300 40 true in
  Permutation [a; b] [b; a]
  /\ exportCanvasSize [a; b] = exportCanvasSize [b; a].
Proof.
  intros a b.
  assert (Hperm : Permutation [a; b] [b; a]) by constructor.
  split; [exact Hperm|].
  exact (export_canvas_size_ignores_layer_order _ _ Hperm).
Defined.

(** *** The box holds every fixed layer *)

Lemma minimum_le_head (r : R) (rs : list R) : minimum r rs <= r.
Proof. destruct rs; simpl; [lra | apply Rmin_l]. Qed.

Lemma minimum_le (rs : list R) :
  forall r s, In s (r :: rs) -> minimum r rs <= s.
Proof.
  induction rs as [|r' rs IH]; intros r s [Heq|Hin]; simpl.
  - subst; lra.
  - destruct Hin.
  - subst. apply Rmin_l.
  - eapply Rle_trans; [apply Rmin_r | now apply IH].
Qed.

Lemma maximum_ge (rs : list R) :
  forall r s, In s (r :: rs) -> s <= maximum r rs.
Proof.
  induction rs as [|r' rs IH]; intros r s [Heq|Hin]; simpl.
  - subst; lra.
  - destruct Hin.
  - subst. apply Rmax_l.
  - eapply Rle_trans; [|apply Rmax_r]. now apply IH.
Qed.

(** X16. When some layer is fixed, the four bounds of the box are finite
    and the unrotated footprint of every fixed layer lies within the box:
    no fixed layer starts left of or above it, and none ends right of or
    below it; the right and the bottom bound are never negative. *)
Theorem export_box_holds_every_fixed_layer :
  forall (st : AppState) (fixedLayer : Layer.t),
    In fixedLayer (layers st) ->
    Layer.isFixed fixedLayer = true ->
    exists x0 y0 x1 y1,
      boundingBox (filter Layer.isFixed (layers st))
      = {| minX := JS.Fin x0; minY := JS.Fin y0;
           maxX := JS.Fin x1; maxY := JS.Fin y1 |}
      /\ 0 <= x1 /\ 0 <= y1
      /\ forall l, In l (layers st) -> Layer.isFixed l = true ->
                   x0 <= Layer.x l /\ rightEdge l <= x1
                   /\ y0 <= Layer.y l /\ bottomEdge l <= y1.
Proof.
  intros st fixedLayer Hin Hfixed.
  assert (Hmem : In fixedLayer (filter Layer.isFixed (layers st)))
    by (apply filter_In; now split).
  destruct (filter Layer.isFixed (layers st)) as [|l0 ls] eqn:Hf;
    [destruct Hmem|].
  rewrite boundingBox_cons. do 4 eexists. split; [reflexivity|].
  split; [apply Rmax_l|]. split; [apply Rmax_l|].
  intros l Hl Hlfixed.
  assert (Hl' : In l (l0 :: ls)).
  { rewrite <- Hf. apply filter_In. now split. }
  repeat split.
  - apply (minimum_le (map Layer.x ls) (Layer.x l0)).
    change (In (Layer.x l) (map Layer.x (l0 :: ls))). now apply in_map.
  - eapply Rle_trans; [|apply Rmax_r].
    apply (maximum_ge (map rightEdge ls) (rightEdge l0)).
    change (In (rightEdge l) (map rightEdge (l0 :: ls))). now apply in_map.
  - apply (minimum_le (map Layer.y ls) (Layer.y l0)).
    change (In (Layer.y l) (map Layer.y (l0 :: ls))). now apply in_map.
  - eapply Rle_trans; [|apply Rmax_r].
    apply (maximum_ge (map bottomEdge ls) (bottomEdge l0)).
    change (In (bottomEdge l) (map bottomEdge (l0 :: ls))). now apply in_map.
Qed.

Lemma export_box_holds_every_fixed_layer_witness :
  let a := sampleLayer "layer-1" 10 10 true in
  let b := sampleLayer "layer-2" 300 40 true in
  let st := {| layers := [a; b]; selectedLayerId := None |} in
  exists x0 x1,
    minX (boundingBox (filter Layer.isFixed (layers st))) = JS.Fin x0
    /\ maxX (boundingBox (filter Layer.isFixed (layers st))) = JS.Fin x1
    /\ x0 <= Layer.x b /\ rightEdge b <= x1.
Proof.
  intros a b st.
  assert (Hin : In b (layers st)) by (simpl; auto).
  destruct (export_box_holds_every_fixed_layer st b Hin eq_refl)
    as (x0 & y0 & x1 & y1 & Hbox & _ & _ & Hall).
  destruct (Hall b Hin eq_refl) as (Hleft & Hright & _).
  exists x0, x1. rewrite Hbox. simpl.
  split; [reflexivity|]. split; [reflexivity|].
  split; [exact Hleft | exact Hright].
Defined.



(** X18. After the fix action on an id the store holds, an export whose
    images all decode downloads a file: it does not show the
    no-fixed-tattoos message. *)
Theorem export_after_fix_downloads :
  forall (decodes : string -> bool) (st : AppState) (id : string),
    In id (map Layer.id (layers st)) ->
    (forall l, In l (layers st) -> decodes (Layer.src l) = true) ->
    exists content,
      handleExport decodes (exec (handleFixLayer id) st)
      = (Returned, exec (handleFixLayer id) st,
         [Download "tattoo-collage.png" content]).
Proof.
  intros decodes st id Hid Hall.
  set (st' := exec (handleFixLayer id) st).
  apply in_map_iff in Hid. destruct Hid as (l & Hl & Hin).
  assert (Hmem : In (spread l fixUpdate) (filter Layer.isFixed (layers st'))).
  { apply filter_In. split; [|reflexivity]. subst st'. rewrite exec_fix.
    simpl. apply in_map_iff. exists l. split; [|exact Hin].
    apply String.eqb_eq in Hl. now rewrite Hl. }
  destruct (filter Layer.isFixed (layers st')) as [|l0 ls] eqn:Hf;
    [destruct Hmem|].
  assert (Hdec : forall l', In l' (l0 :: ls) -> decodes (Layer.src l') = true).
  { intros l' Hl'. rewrite <- Hf in Hl'. apply filter_In in Hl'.
    destruct Hl' as (Hl' & _). subst st'. rewrite exec_fix in Hl'.
    simpl in Hl'. apply in_map_iff in Hl'. destruct Hl' as (l1 & Hl1 & Hin1).
    subst l'. destruct (String.eqb (Layer.id l1) id); simpl; now apply Hall. }
  destruct (export_downloads_when_all_decode decodes st' l0 ls Hf Hdec)
    as (content & Hrun & _).
  exists content. exact Hrun.
Qed.

Lemma export_after_fix_downloads_witness :
  let st := {| layers := [sampleLayer "layer-1" 10 10 false];
               selectedLayerId := Some "layer-1" |} in
  (exists content,
      handleExport (fun _ => true) (exec (handleFixLayer "layer-1") st)
      = (Returned, exec (handleFixLayer "layer-1") st,
         [Download "tattoo-collage.png" content]))
  /\ handleExport (fun _ => true) st = (Returned, st, [Alert noFixedMessage]).
Proof.
  intros st. split; [|reflexivity].
  apply (export_after_fix_downloads (fun _ => true) st "layer-1").
  - simpl. now left.
  - reflexivity.
Defined.

(** ** A dropped layer is ready for editing *)

Lemma find_app_last {A : Type} (f : A -> bool) (xs : list A) (x : A) :
  (forall a, In a xs -> f a = false) ->
  f x = true ->
  find f (xs ++ [x])%list = Some x.
Proof.
  intros Hnone Hx. induction xs as [|a xs IH]; simpl.
  - now rewrite Hx.
  - rewrite (Hnone a) by now left. apply IH. intros b Hb. apply Hnone.
    now right.
Qed.

Lemma selectedLayerOf_appended (ls : list Layer.t) (newLayer : Layer.t) :
  ~ In (Layer.id newLayer) (map Layer.id ls) ->
  selectedLayerOf {| layers := (ls ++ [newLayer])%list;
                     selectedLayerId := Some (Layer.id newLayer) |}
  = Some newLayer.
Proof.
  intros Hfresh. unfold selectedLayerOf. simpl. apply find_app_last.
  - intros a Ha. apply String.eqb_neq. intros Heq. apply Hfresh.
    rewrite Heq. now apply in_map.
  - apply String.eqb_refl.
Qed.

(** X19. A drop that goes through, at a time whose id no layer of the
    store has: the layers of the store keep their places and the new
    layer comes last; the new layer is the selected layer, and the
    properties panel shows its controls. *)
Theorem dropped_layer_is_selected_for_editing :
  forall (e : MouseEvent) (asset : Asset.t) (canvasBounds : DOMRect)
         (getImageDimensions : string -> option (R * R)) (now : N)
         (st : AppState),
    getImageDimensions (Asset.src asset) <> None ->
    ~ In (layerId now) (map Layer.id (layers st)) ->
    let st' := exec (handleCanvasDrop e (Some asset) (Some canvasBounds)
                                      getImageDimensions now) st in
    exists newLayer,
      layers st' = (layers st ++ [newLayer])%list
      /\ (forall n l, nth_error (layers st) n = Some l ->
                      nth_error (layers st') n = Some l)
      /\ selectedLayerOf st' = Some newLayer
      /\ rendersControls (selectedLayerOf st') = true.
Proof.
  intros e asset cb dims now st Hdims Hfresh st'. subst st'.
  unfold handleCanvasDrop.
  destruct (dims (Asset.src asset)) as [[w h]|]; [|contradiction].
  eexists. split; [reflexivity|]. unfold exec. simpl. split.
  - intros n l Hn. rewrite nth_error_app1; [exact Hn|].
    apply nth_error_Some. congruence.
  - split.
    + apply (selectedLayerOf_appended (layers st)). exact Hfresh.
    + rewrite (selectedLayerOf_appended (layers st)) by exact Hfresh.
      reflexivity.
Qed.

Lemma dropped_layer_is_selected_for_editing_witness :
  let e := {| clientX := 402; clientY := 114 |} in
  let asset := Asset.mk "dragon-1" "https://i.imgur.com/vH1C2T6.png" in
  let canvasBounds := {| rect_left := 352; rect_top := 64;
                         rect_width := 800; rect_height := 600 |} in
  let dims := fun _ : string => Some (200, 100) in
  let st := {| layers := [sampleLayer "layer-1" 10 10 true];
               selectedLayerId := None |} in
  rendersControls
    (selectedLayerOf
       (exec (handleCanvasDrop e (Some asset) (Some canvasBounds) dims
                               1700000000000) st)) = true.
Proof.
  intros e asset canvasBounds dims st.
  assert (Hdims : dims (Asset.src asset) <> None) by discriminate.
  assert (Hfresh : ~ In (layerId 1700000000000) (map Layer.id (layers st))).
  { simpl. intros [H|[]]. discriminate H. }
  destruct (dropped_layer_is_selected_for_editing e asset canvasBounds dims
              1700000000000 st Hdims Hfresh) as (newLayer & _ & _ & _ & H).
  exact H.
Defined.

(** ** The generator and the uploads *)

Lemma trimStart_nil (cs : list ascii) :
  trimStart cs = [] <-> forallb isWhiteSpace cs = true.
Proof.
  induction cs as [|c cs IH]; simpl; [tauto|].
  destruct (isWhiteSpace c); simpl; [exact IH|]. split; discriminate.
Qed.

(** What is left of a blank-free start is blank only when it is empty. *)
Lemma trimStart_blank (cs : list ascii) :
  forallb isWhiteSpace (trimStart cs) = true -> trimStart cs = [].
Proof.
  induction cs as [|c cs IH]; simpl; [reflexivity|].
  destruct (isWhiteSpace c) eqn:E; [exact IH|]. simpl. rewrite E.
  discriminate.
Qed.

Lemma forallb_rev {A : Type} (f : A -> bool) (xs : list A) :
  forallb f (List.rev xs) = forallb f xs.
Proof.
  destruct (forallb f xs) eqn:E.
  - rewrite forallb_forall in *. intros a Ha. apply E. now apply in_rev.
  - destruct (forallb f (List.rev xs)) eqn:E'; [|reflexivity].
    rewrite forallb_forall in E'.
    assert (forallb f xs = true); [|congruence].
    apply forallb_forall. intros a Ha. apply E'. now apply in_rev in Ha.
Qed.

Lemma string_of_list_ascii_nil (cs : list ascii) :
  string_of_list_ascii cs = EmptyString <-> cs = [].
Proof. destruct cs; simpl; split; congruence. Qed.

(** [prompt.trim()] is the empty string exactly for a prompt made of white
    space only. *)
Lemma trim_empty (s : string) :
  trim s = EmptyString
  <-> forallb isWhiteSpace (list_ascii_of_string s) = true.
Proof.
  unfold trim, trimEnd. rewrite string_of_list_ascii_nil. split.
  - intros H. apply (f_equal (@List.rev ascii)) in H.
    rewrite rev_involutive in H. simpl in H.
    apply trimStart_nil in H. rewrite forallb_rev in H.
    apply trimStart_blank in H. now apply trimStart_nil.
  - intros H. apply trimStart_nil in H. rewrite H. reflexivity.
Qed.

(** X20. A prompt that is empty or made of white space only is turned
    down: whatever the service would answer, the error message asks for a
    description and the prompt, the loading flag and the assets stay as
    they are.  Every other prompt is passed on as typed: when the service
    answers with an image, a new asset with that source and the id made
    from the time is put before the assets, the prompt is emptied and the
    error cleared; when the service throws, the assets and the prompt stay
    and the error is the thrown message or the unknown-error text.  In
    both of these cases loading ends switched off. *)
Theorem generate_turns_down_blank_prompts :
  forall (generateTattooImage : string -> TattooStyle -> string + Thrown)
         (now : N) (g : GeneratorState) (prev : list Asset.t),
    let blank := forallb isWhiteSpace (list_ascii_of_string (prompt g)) in
    let after := handleGenerate generateTattooImage now g prev in
    (blank = true ->
     after = ({| prompt := prompt g; style := style g;
                 isLoading := isLoading g;
                 error := Some emptyPromptMessage |}, prev))
    /\ (blank = false ->
        isLoading (fst after) = false
        /\ style (fst after) = style g
        /\ match generateTattooImage (prompt g) (style g) with
           | inl generatedSrc =>
               snd after = Asset.mk (aiId now) generatedSrc :: prev
               /\ prompt (fst after) = ""
               /\ error (fst after) = None
           | inr thrown =>
               snd after = prev
               /\ prompt (fst after) = prompt g
               /\ error (fst after)
                  = Some match thrown with
                         | ThrownError message => message
                         | ThrownOther => unknownErrorMessage
                         end
           end).
Proof.
  intros gen now g prev blank after. subst blank after.
  pose proof (trim_empty (prompt g)) as Htrim.
  unfold handleGenerate. split; intros Hblank.
  - apply Htrim in Hblank. now rewrite Hblank.
  - destruct (trim (prompt g)) as [|c s].
    + rewrite (proj1 Htrim eq_refl) in Hblank. discriminate.
    + destruct (gen (prompt g) (style g)) as [src|[message|]]; simpl;
        repeat split.
Qed.

Lemma generate_turns_down_blank_prompts_witness :
  let gen := fun (_ : string) (_ : TattooStyle) =>
               @inl string Thrown "data:image/png;base64,AAAA" in
  let blank := {| prompt := "   "; style := Tribal; isLoading := false;
                  error := None |} in
  let typed := {| prompt := " a koi fish"; style := Japanese;
                  isLoading := false; error := None |} in
  snd (handleGenerate gen 1700000000000 blank (assets initialLibrary))
  = assets initialLibrary
  /\ isLoading (fst (handleGenerate gen 1700000000000 typed
                                    (assets initialLibrary))) = false.
Proof.
  intros gen blank typed.
  destruct (generate_turns_down_blank_prompts gen 1700000000000 blank
              (assets initialLibrary)) as (Hblank & _).
  destruct (generate_turns_down_blank_prompts gen 1700000000000 typed
              (assets initialLibrary)) as (_ & Htyped).
  split.
  - now rewrite (Hblank eq_refl).
  - exact (proj1 (Htyped eq_refl)).
Defined.

(** X21. An upload never removes or reorders an asset: the assets after it
    are those before it with at most one put in front.  A model upload
    leaves the assets alone and an asset upload leaves the model image
    alone.  The user is shown a message exactly when a file was chosen
    and could not be read, and then nothing has changed. *)
Theorem upload_keeps_assets :
  forall (file : option string) (fileToDataUrl : string -> option string)
         (type : UploadType) (now : N) (lib : Library),
    let after := handleFileUpload file fileToDataUrl type now lib in
    (exists added, assets (fst after) = (added ++ assets lib)%list
                   /\ (List.length added <= 1)%nat)
    /\ (type = upload_model -> assets (fst after) = assets lib)
    /\ (type = upload_asset -> modelImage (fst after) = modelImage lib)
    /\ (snd after <> []
        <-> exists f, file = Some f /\ fileToDataUrl f = None)
    /\ (snd after <> [] ->
        fst after = lib /\ snd after = [Alert uploadFailedMessage]).
Proof.
  intros file read type now lib after. subst after. unfold handleFileUpload.
  assert (Hquiet : forall (lib' : Library) (P Q : Prop),
            ~ P ->
            ((@snd Library (list Effect) (lib', []) <> [] <-> P)
             /\ (@snd Library (list Effect) (lib', []) <> [] -> Q))).
  { intros lib' P Q HP. simpl. split; [split|]; intros H;
      try contradiction; exfalso; now apply H. }
  destruct file as [f|].
  - destruct (read f) as [dataUrl|] eqn:E.
    + assert (Hno : ~ exists f0, Some f = Some f0 /\ read f0 = None).
      { intros (f0 & Hf & Hr). injection Hf as <-. congruence. }
      destruct type.
      * split; [exists []; split; [reflexivity | apply le_0_n]|].
        split; [reflexivity|]. split; [discriminate|].
        apply Hquiet, Hno.
      * split; [eexists [_]; split; [reflexivity | apply le_n]|].
        split; [discriminate|]. split; [reflexivity|].
        apply Hquiet, Hno.
    + simpl. split; [exists []; split; [reflexivity | apply le_0_n]|].
      split; [reflexivity|]. split; [reflexivity|].
      split; [|intros _; split; reflexivity].
      split; [intros _; now exists f | discriminate].
  - assert (Hno : ~ exists f0, @None string = Some f0 /\ read f0 = None).
    { intros (f0 & Hf & _). discriminate. }
    split; [exists []; split; [reflexivity | apply le_0_n]|].
    split; [reflexivity|]. split; [reflexivity|].
    apply Hquiet, Hno.
Qed.

Lemma upload_keeps_assets_witness :
  let read := fun _ : string => Some "data:image/png;base64,BBBB" in
  assets (fst (handleFileUpload (Some "koi.png") read upload_model
                                1700000000000 initialLibrary))
  = assets initialLibrary.
Proof.
  intros read.
  destruct (upload_keeps_assets (Some "koi.png") read upload_model
              1700000000000 initialLibrary) as (_ & Hmodel & _).
  exact (Hmodel eq_refl).
Defined.

(** ** The rotate handle *)



